(** * Limit-up stock filter ([gupiao/zt_filter_strategy.py])

    A shallow embedding of [filter_stocks] and of its local helper
    [extract_half_year_times], together with the part of Python and pandas
    they rely on:

    - [Float64]: IEEE binary64 numbers, on the Standard Library's
      [spec_float] (every numeric column is a float64 column here);
    - [Py]: Python scalars, [str.split], [int(..)], [float(..)];
    - [Pandas]: a table with labelled columns, an index label per row, and
      the DataFrame/Series operations the script calls;
    - [Store]: the object store, with tables behind references, so that
      [df.copy()], in-place updates and the returned object are the ones of
      the script;
    - [Strategy]: the script's two functions, statement by statement. *)

From Stdlib Require Import ZArith String Ascii List Lia Bool.
From Stdlib Require Import Sorting.Sorted Sorting.Permutation.
From Stdlib Require Import Floats.SpecFloat.
From Stdlib Require Decimal DecimalString DecimalPos DecimalN DecimalZ.
From stdpp Require Import base tactics option list.

Local Open Scope Z_scope.

(** ** IEEE binary64 *)

Module Float64.

Definition prec : Z := 53.
Definition emax : Z := 1024.

Abbreviation float := spec_float.

(** Conversion of an integer, rounding to nearest even; an integer beyond
    the range becomes an infinity. *)
Definition of_Z (z : Z) : float := binary_normalize prec emax z 0 false.

Definition div (x y : float) : float := SFdiv prec emax x y.

Definition compare (x y : float) : option comparison := SFcompare x y.
Definition ltb (x y : float) : bool := SFltb x y.
Definition leb (x y : float) : bool := SFleb x y.
Definition eqb (x y : float) : bool := SFeqb x y.

Definition nan : float := S754_nan.

Definition is_nan (x : float) : bool :=
  match x with S754_nan => true | _ => false end.

Definition is_inf (x : float) : bool :=
  match x with S754_infinity _ => true | _ => false end.

(** The integer part, towards zero; nothing for NaN and the infinities. *)
Definition trunc (x : float) : option Z :=
  match x with
  | S754_zero _ => Some 0
  | S754_finite s m e => Some (cond_Zopp s (Z.shiftl (Zpos m) e))
  | S754_infinity _ | S754_nan => None
  end.

(** The value of the decimal [m * 10^e], correctly rounded. *)
Definition of_decimal (neg : bool) (m : N) (e : Z) : float :=
  match m with
  | N0 => S754_zero neg
  | Npos p =>
      match e with
      | Zneg k => SFdiv prec emax (S754_finite neg p 0)
                                  (S754_finite false (Pos.pow 10 k) 0)
      | _ => binary_normalize prec emax
               (cond_Zopp neg (Zpos p * 10 ^ e)) 0 false
      end
  end.

(** The constants of the script. *)
Definition f1 : float := Eval vm_compute in of_Z 1.
Definition f3 : float := Eval vm_compute in of_Z 3.
Definition f4 : float := Eval vm_compute in of_Z 4.
Definition f30 : float := Eval vm_compute in of_Z 30.
Definition f200 : float := Eval vm_compute in of_Z 200.
Definition f1000 : float := Eval vm_compute in of_Z 1000.
Definition f1e8 : float := Eval vm_compute in of_Z 100000000.

(** NaN set apart, the comparison is the lexicographic one of the ranks:
    sign class, then exponent, then mantissa. *)
Definition rank (x : float) : Z * Z * Z :=
  match x with
  | S754_nan => (3, 0, 0)
  | S754_infinity false => (2, 0, 0)
  | S754_infinity true => (-2, 0, 0)
  | S754_zero _ => (0, 0, 0)
  | S754_finite false m e => (1, e, Zpos m)
  | S754_finite true m e => (-1, - e, Zneg m)
  end.

Definition lex3 (a b : Z * Z * Z) : comparison :=
  let '(a1, a2, a3) := a in
  let '(b1, b2, b3) := b in
  match a1 ?= b1 with
  | Eq => match a2 ?= b2 with Eq => a3 ?= b3 | c => c end
  | c => c
  end.

Definition opp3 (a : Z * Z * Z) : Z * Z * Z :=
  let '(a1, a2, a3) := a in (- a1, - a2, - a3).

(** The rank a sort key is ordered by: NaN above everything, in both
    directions. *)
Definition key_rank (asc : bool) (x : float) : Z * Z * Z :=
  if is_nan x then (3, 0, 0)
  else if asc then rank x else opp3 (rank x).

End Float64.

(** ** Comparisons as weak orders, and a stable sort *)

Module Order.

(** A three-way comparison that is a total preorder. *)
Class WeakOrder {A : Type} (cmp : A -> A -> comparison) : Prop := {
  cmp_refl : forall x, cmp x x = Eq;
  cmp_opp : forall x y, cmp y x = CompOpp (cmp x y);
  cmp_lt_trans : forall x y z, cmp x y = Lt -> cmp y z = Lt -> cmp x z = Lt;
  cmp_eq_l : forall x y z, cmp x y = Eq -> cmp x z = cmp y z
}.

Definition leb_of {A : Type} (cmp : A -> A -> comparison) (x y : A) : bool :=
  match cmp x y with Gt => false | _ => true end.

Definition eqb_of {A : Type} (cmp : A -> A -> comparison) (x y : A) : bool :=
  match cmp x y with Eq => true | _ => false end.

(** Lexicographic combination, and the comparison of the images under [f]. *)
Definition lex {A : Type} (c1 c2 : A -> A -> comparison) (x y : A) : comparison :=
  match c1 x y with Eq => c2 x y | c => c end.

Definition on {A B : Type} (f : A -> B) (cmp : B -> B -> comparison) (x y : A)
  : comparison := cmp (f x) (f y).

Definition trivial_cmp {A : Type} (x y : A) : comparison := Eq.

(** Insertion sort: [x] goes before the first element that is not below
    it, hence before the elements it ties with, which came after it. *)
Section Sort.
Context {A : Type} (cmp : A -> A -> comparison).

Fixpoint insert (x : A) (l : list A) : list A :=
  match l with
  | [] => [x]
  | y :: l' => if leb_of cmp x y then x :: l else y :: insert x l'
  end.

Definition sort (l : list A) : list A := foldr insert [] l.

Definition le (x y : A) : Prop := leb_of cmp x y = true.

End Sort.

End Order.

(** ** Python scalars and builtins *)

Module Py.
Import Float64.

Inductive exn : Set :=
  KeyError | TypeError | ValueError | OverflowError | NameError.

(** The outcome of a call: a value, or a raised exception. *)
Inductive result (A : Type) : Type :=
| Ok (a : A)
| Raise (e : exn).
Arguments Ok {A} a.
Arguments Raise {A} e.

#[export] Instance result_ret : MRet result := fun A a => Ok a.
#[export] Instance result_bind : MBind result := fun A B f m =>
  match m with Ok a => f a | Raise e => Raise e end.
#[export] Instance result_fmap : FMap result := fun A B f m =>
  match m with Ok a => Ok (f a) | Raise e => Raise e end.

(** [try: m except: h] with a bare [except]. *)
Definition try_except {A : Type} (m : result A) (h : A) : result A :=
  match m with Ok a => Ok a | Raise _ => Ok h end.

(** The values a cell holds: [None], a bool, an int, a float (NaN among
    them) or a str. A str is its UTF-8 bytes. *)
Inductive pyval : Type :=
| PNone
| PBool (b : bool)
| PInt (z : Z)
| PFloat (f : float)
| PStr (s : string).

(** [pd.isna(x)] for a scalar. *)
Definition isna (x : pyval) : bool :=
  match x with
  | PNone => true
  | PFloat f => is_nan f
  | _ => false
  end.

(** [sep in s] and [s.split(sep)] for a one-character separator. *)
Fixpoint contains (sep : ascii) (s : string) : bool :=
  match s with
  | EmptyString => false
  | String c s' => Ascii.eqb c sep || contains sep s'
  end.

Fixpoint split (sep : ascii) (s : string) : list string :=
  match s with
  | EmptyString => [EmptyString]
  | String c s' =>
      if Ascii.eqb c sep then EmptyString :: split sep s'
      else match split sep s' with
           | h :: t => String c h :: t
           | [] => [String c EmptyString]
           end
  end.

(** *** Numeric literals

    [int(s)] and [float(s)] first bring the str to ASCII
    ([_PyUnicode_TransformDecimalAndSpaceToASCII]): a code point below 128
    stays, a Unicode blank becomes a space, a Unicode decimal digit becomes
    the ASCII digit of its value, and anything else makes the literal
    invalid. The literal is then read in ASCII: blanks around (tab, line
    feed, vertical tab, form feed, carriage return, space), a sign, decimal
    digits with single underscores between digits. The tables are those of
    Unicode 14.0 (CPython 3.11). *)

(** The code points of a str, from its UTF-8 bytes. Bytes that are not
    UTF-8, which no str has, give the point [bad_point]. *)
Definition bad_point : N := 0x110000.

Definition continuation (b : ascii) : option N :=
  let n := N_of_ascii b in
  if ((0x80 <=? n) && (n <? 0xC0))%N then Some (n - 0x80)%N else None.

Definition point_in (lo hi n : N) : N :=
  if ((lo <=? n) && (n <=? hi) && negb ((0xD800 <=? n) && (n <=? 0xDFFF)))%N
  then n else bad_point.

Fixpoint code_points (bs : list ascii) : list N :=
  match bs with
  | [] => []
  | b0 :: bs1 =>
      let n0 := N_of_ascii b0 in
      if (n0 <? 0x80)%N then n0 :: code_points bs1
      else if ((0xC0 <=? n0) && (n0 <? 0xE0))%N then
        match bs1 with
        | b1 :: bs2 =>
            match continuation b1 with
            | Some n1 =>
                point_in 0x80 0x7FF ((n0 - 0xC0) * 64 + n1) :: code_points bs2
            | None => bad_point :: code_points bs1
            end
        | [] => [bad_point]
        end
      else if ((0xE0 <=? n0) && (n0 <? 0xF0))%N then
        match bs1 with
        | b1 :: b2 :: bs3 =>
            match continuation b1, continuation b2 with
            | Some n1, Some n2 =>
                point_in 0x800 0xFFFF (((n0 - 0xE0) * 64 + n1) * 64 + n2)
                  :: code_points bs3
            | _, _ => bad_point :: code_points bs1
            end
        | _ => [bad_point]
        end
      else if ((0xF0 <=? n0) && (n0 <? 0xF8))%N then
        match bs1 with
        | b1 :: b2 :: b3 :: bs4 =>
            match continuation b1, continuation b2, continuation b3 with
            | Some n1, Some n2, Some n3 =>
                point_in 0x10000 0x10FFFF
                  ((((n0 - 0xF0) * 64 + n1) * 64 + n2) * 64 + n3)
                  :: code_points bs4
            | _, _, _ => bad_point :: code_points bs1
            end
        | _ => [bad_point]
        end
      else bad_point :: code_points bs1
  end.

(** The blanks beyond ASCII ([str.isspace]). *)
Definition is_blank_point (n : N) : bool :=
  (existsb (N.eqb n)
     [0x85; 0xA0; 0x1680; 0x2028; 0x2029; 0x202F; 0x205F; 0x3000]
   || (0x2000 <=? n) && (n <=? 0x200A))%N.

(** The decimal digits beyond ASCII come in runs of ten, from the digit zero
    of a script to its digit nine; these are the zeros. *)
Definition decimal_zeros : list N :=
  [
    0x660; 0x6F0; 0x7C0; 0x966; 0x9E6; 0xA66; 0xAE6; 0xB66; 0xBE6; 0xC66;
    0xCE6; 0xD66; 0xDE6; 0xE50; 0xED0; 0xF20; 0x1040; 0x1090; 0x17E0;
    0x1810; 0x1946; 0x19D0; 0x1A80; 0x1A90; 0x1B50; 0x1BB0; 0x1C40; 0x1C50;
    0xA620; 0xA8D0; 0xA900; 0xA9D0; 0xA9F0; 0xAA50; 0xABF0; 0xFF10; 0x104A0;
    0x10D30; 0x11066; 0x110F0; 0x11136; 0x111D0; 0x112F0; 0x11450; 0x114D0;
    0x11650; 0x116C0; 0x11730; 0x118E0; 0x11950; 0x11C50; 0x11D50; 0x11DA0;
    0x16A60; 0x16AC0; 0x16B50; 0x1D7CE; 0x1D7D8; 0x1D7E2; 0x1D7EC; 0x1D7F6;
    0x1E140; 0x1E2F0; 0x1E950; 0x1FBF0
  ]%N.

Definition decimal_of_point (n : N) : option N :=
  match List.find (fun z => (z <=? n) && (n <? z + 10))%N decimal_zeros with
  | Some z => Some (n - z)%N
  | None => None
  end.

Definition ascii_of_point (n : N) : ascii :=
  if (n <? 128)%N then ascii_of_N n
  else if is_blank_point n then " "%char
  else match decimal_of_point n with
       | Some d => ascii_of_N (48 + d)
       | None => "?"%char
       end.

Definition ascii_form (s : string) : list ascii :=
  map ascii_of_point (code_points (list_ascii_of_string s)).

(** The blanks of the ASCII readers ([Py_ISSPACE]). *)
Definition is_space (c : ascii) : bool :=
  let n := nat_of_ascii c in
  ((9 <=? n) && (n <=? 13) || (n =? 32))%nat.

Definition digit_of (c : ascii) : option N :=
  let n := N_of_ascii c in
  if ((48 <=? n) && (n <=? 57))%N then Some (n - 48)%N else None.

Definition lower (c : ascii) : ascii :=
  let n := nat_of_ascii c in
  if ((65 <=? n) && (n <=? 90))%nat then ascii_of_nat (n + 32) else c.

Fixpoint lstrip (s : list ascii) : list ascii :=
  match s with
  | c :: s' => if is_space c then lstrip s' else s
  | [] => []
  end.

Definition strip (s : list ascii) : list ascii :=
  rev (lstrip (rev (lstrip s))).

Definition take_sign (s : list ascii) : bool * list ascii :=
  match s with
  | "-"%char :: s' => (true, s')
  | "+"%char :: s' => (false, s')
  | _ => (false, s)
  end.

(** The digits after a first one: the value so far, the number of digits
    read, and what is left. *)
Fixpoint scan_more (us : bool) (v : N) (n : nat) (s : list ascii)
  : N * nat * list ascii :=
  match s with
  | c :: s' =>
      match digit_of c with
      | Some d => scan_more us (10 * v + d)%N (S n) s'
      | None =>
          if us && Ascii.eqb c "_" then
            match s' with
            | c' :: s'' =>
                match digit_of c' with
                | Some d' => scan_more us (10 * v + d')%N (S n) s''
                | None => (v, n, s)
                end
            | [] => (v, n, s)
            end
          else (v, n, s)
      end
  | [] => (v, n, [])
  end.

Definition scan_digits (us : bool) (s : list ascii)
  : option (N * nat * list ascii) :=
  match s with
  | c :: s' =>
      match digit_of c with
      | Some d => Some (scan_more us d 1%nat s')
      | None => None
      end
  | [] => None
  end.

(** The longest digit string [int] converts
    ([sys.get_int_max_str_digits()], as the interpreter starts). *)
Definition int_max_str_digits : nat := 4300.

(** An integer literal in ASCII, base 10. *)
Definition int_literal (cs : list ascii) : result Z :=
  let '(neg, ds) := take_sign (strip cs) in
  match scan_digits true ds with
  | Some (v, n, []) =>
      if (n <=? int_max_str_digits)%nat
      then Ok (if neg then - Z.of_N v else Z.of_N v)
      else Raise ValueError
  | _ => Raise ValueError
  end.

(** [int(s)] for a str. *)
Definition int_of_str (s : string) : result Z := int_literal (ascii_form s).

(** The exponent part [e[+-]digits], if any. *)
Definition scan_exponent (us : bool) (s : list ascii) : option (Z * list ascii) :=
  match s with
  | c :: s' =>
      if Ascii.eqb (lower c) "e" then
        let '(neg, s'') := take_sign s' in
        match scan_digits us s'' with
        | Some (v, _, rest) => Some (if neg then - Z.of_N v else Z.of_N v, rest)
        | None => None
        end
      else Some (0, s)
  | [] => Some (0, [])
  end.

(** Mantissa digits (integer part, then fraction) and decimal exponent. *)
Definition scan_number (us : bool) (s : list ascii) : option (N * Z) :=
  match scan_digits us s with
  | Some (v, _, "."%char :: rest) =>
      let '(m, k, rest') :=
        match scan_digits us rest with
        | Some (f, k, rest') =>
            (* the fraction digits extend the integer digits *)
            ((v * 10 ^ N.of_nat k + f)%N, k, rest')
        | None => (v, 0%nat, rest)
        end in
      match scan_exponent us rest' with
      | Some (e, []) => Some (m, e - Z.of_nat k)
      | _ => None
      end
  | Some (v, _, rest) =>
      match scan_exponent us rest with
      | Some (e, []) => Some (v, e)
      | _ => None
      end
  | None =>
      match s with
      | "."%char :: rest =>
          match scan_digits us rest with
          | Some (f, k, rest') =>
              match scan_exponent us rest' with
              | Some (e, []) => Some (f, e - Z.of_nat k)
              | _ => None
              end
          | None => None
          end
      | _ => None
      end
  end.

(** [inf], [infinity] and [nan], in any case, after the sign. *)
Definition special_word (neg : bool) (cs : list ascii) : option float :=
  let word := string_of_list_ascii (map lower cs) in
  if (String.eqb word "inf" || String.eqb word "infinity")%string
  then Some (S754_infinity neg)
  else if String.eqb word "nan" then Some nan
  else None.

(** A float literal in ASCII; nothing when it is invalid. *)
Definition float_literal (cs : list ascii) : option float :=
  let '(neg, ds) := take_sign (strip cs) in
  match special_word neg ds with
  | Some f => Some f
  | None =>
      match scan_number true ds with
      | Some (m, e) => Some (of_decimal neg m e)
      | None => None
      end
  end.

(** [float(s)] for a str. *)
Definition float_of_str (s : string) : option float :=
  float_literal (ascii_form s).

(** [float(x)]. *)
Definition py_float (x : pyval) : result float :=
  match x with
  | PNone => Raise TypeError
  | PBool b => Ok (of_Z (if b then 1 else 0))
  | PInt z => let f := of_Z z in if is_inf f then Raise OverflowError else Ok f
  | PFloat f => Ok f
  | PStr s =>
      match float_of_str s with
      | Some f => Ok f
      | None => Raise ValueError
      end
  end.

(** [int(f)] for a float. *)
Definition int_of_float (f : float) : result Z :=
  match trunc f with
  | Some z => Ok z
  | None => Raise (if is_nan f then ValueError else OverflowError)
  end.













End Py.


(** ** pandas: tables and columns *)

Module Pandas.
Import Float64 Py Order.
Local Open Scope nat_scope.

(** A column taken out of a table: the values in row order. Every Series of
    the script comes from the table it is used with, so that the alignment
    on the index is the one by position. *)
Definition Series : Type := list pyval.

(** A row: its index label and its cells, in column order. *)
Definition row : Type := pyval * list pyval.

Record DataFrame : Type := mkDF {
  columns : list string;
  rows : list row
}.

(** The labels are distinct and every row has a cell per column. *)
Definition wf (df : DataFrame) : Prop :=
  NoDup (columns df) /\
  Forall (fun r : row => length (snd r) = length (columns df)) (rows df).

Definition cell (p : nat) (r : row) : pyval := nth p (snd r) PNone.

(** A row with one cell replaced, with a cell added last, and cut down to
    the cells at the positions [ps]. *)
Definition set_cell (p : nat) (r : row) (x : pyval) : row :=
  (fst r, <[p:=x]> (snd r)).

Definition add_cell (r : row) (x : pyval) : row := (fst r, snd r ++ [x]).

Definition project (ps : list nat) (r : row) : row :=
  (fst r, map (fun p => cell p r) ps).

(** [df.empty], [len(df)], [c in df.columns]. *)
Definition empty (df : DataFrame) : bool :=
  (length (rows df) =? 0) || (length (columns df) =? 0).

Definition len (df : DataFrame) : nat := length (rows df).

Definition has_col (c : string) (df : DataFrame) : bool :=
  existsb (String.eqb c) (columns df).

Fixpoint index_of (c : string) (l : list string) : option nat :=
  match l with
  | [] => None
  | x :: l' => if String.eqb c x then Some 0 else S <$> index_of c l'
  end.

Definition col_pos (c : string) (df : DataFrame) : result nat :=
  match index_of c (columns df) with
  | Some p => Ok p
  | None => Raise KeyError
  end.

(** [df[c]], for a table whose labels are distinct ([wf]): the column
    under the label. (With a label twice pandas gives a table instead.) *)
Definition get_col (c : string) (df : DataFrame) : result Series :=
  p ← col_pos c df; Ok (map (cell p) (rows df)).

(** [df[c] = s]: the column is replaced where it is, or added last. *)
Definition set_col (c : string) (s : Series) (df : DataFrame)
  : result DataFrame :=
  if negb (length s =? length (rows df)) then Raise ValueError else
  match index_of c (columns df) with
  | Some p => Ok (mkDF (columns df) (zip_with (set_cell p) (rows df) s))
  | None => Ok (mkDF (columns df ++ [c]) (zip_with add_cell (rows df) s))
  end.

(** [df[[c1, ..., cn]]]. *)
Definition select (cs : list string) (df : DataFrame) : result DataFrame :=
  ps ← mapM (fun c => col_pos c df) cs;
  Ok (mkDF cs (map (project ps) (rows df))).

(** [l[mask]]: the entries whose flag is set. *)
Fixpoint keep {A : Type} (mask : list bool) (l : list A) : list A :=
  match mask, l with
  | b :: mask', x :: l' => if b then x :: keep mask' l' else keep mask' l'
  | _, _ => []
  end.

(** [df[mask]] for a boolean Series. *)
Definition mask_rows (mask : list bool) (df : DataFrame) : result DataFrame :=
  if negb (length mask =? length (rows df)) then Raise ValueError
  else Ok (mkDF (columns df) (keep mask (rows df))).

(** [df.rename(columns=m)] for the dict [m], as the list of its items. *)
Fixpoint lookup_item (c : string) (m : list (string * string)) : option string :=
  match m with
  | [] => None
  | (k, v) :: m' => if String.eqb c k then Some v else lookup_item c m'
  end.

(** [m[k] = v]: the item put last is the one looked up. *)
Definition setitem (k v : string) (m : list (string * string))
  : list (string * string) := (k, v) :: m.

Definition rename (m : list (string * string)) (df : DataFrame) : DataFrame :=
  mkDF (map (fun c => default c (lookup_item c m)) (columns df)) (rows df).

(** [df.reset_index(drop=True)]. *)
Definition reset_index (df : DataFrame) : DataFrame :=
  mkDF (columns df) (imap (fun i (r : row) => (PInt (Z.of_nat i), snd r)) (rows df)).

(** *** Numeric columns *)

(** A str under [pd.to_numeric]: the bytes are read as they are, blanks
    around a sign and a number without underscores; failing that, the whole
    str can be [inf] or [infinity] after a sign. What is left, [nan] with
    it, is not a number. *)
Definition numeric_of_str (s : string) : option float :=
  let cs := list_ascii_of_string s in
  let '(neg, ds) := take_sign (strip cs) in
  match scan_number false ds with
  | Some (m, e) => Some (of_decimal neg m e)
  | None =>
      let '(neg', w) := take_sign cs in
      match special_word neg' w with
      | Some f => if is_nan f then None else Some f
      | None => None
      end
  end.

(** [pd.to_numeric(.., errors="coerce")] on one cell. *)
Definition coerce (x : pyval) : float :=
  match x with
  | PNone => nan
  | PBool b => of_Z (if b then 1 else 0)
  | PInt z => of_Z z
  | PFloat f => f
  | PStr s => default nan (numeric_of_str s)
  end.

Definition to_numeric (s : Series) : Series :=
  map (fun x => PFloat (coerce x)) s.

(** The values of a numeric column; a column with a str or a [None] is of
    dtype object, on which the arithmetic and the ordering raise. *)
Definition is_numeric (x : pyval) : bool :=
  match x with
  | PBool _ | PInt _ | PFloat _ => true
  | PNone | PStr _ => false
  end.

Definition as_float (x : pyval) : result float :=
  if is_numeric x then Ok (coerce x) else Raise TypeError.

Definition as_floats (s : Series) : result (list float) := mapM as_float s.

(** [s < c], [s >= c], [s == c], [s / c]. *)
Definition series_lt (s : Series) (c : float) : result (list bool) :=
  fs ← as_floats s; Ok (map (fun f => ltb f c) fs).

Definition series_ge (s : Series) (c : float) : result (list bool) :=
  fs ← as_floats s; Ok (map (fun f => leb c f) fs).

Definition series_eq (s : Series) (c : float) : result (list bool) :=
  fs ← as_floats s; Ok (map (fun f => eqb f c) fs).

Definition series_div (s : Series) (c : float) : result Series :=
  fs ← as_floats s; Ok (map (fun f => PFloat (div f c)) fs).

(** [a & b]. *)
Definition series_and (a b : list bool) : list bool := zip_with andb a b.

(** [s.max()]: the largest value that is not NaN, NaN if there is none. *)
Definition max2 (acc x : float) : float :=
  if is_nan x then acc
  else if is_nan acc then x
  else if ltb acc x then x else acc.

Definition series_max (s : Series) : result float :=
  fs ← as_floats s; Ok (fold_left max2 fs nan).

(** [s.apply(f)]. *)
Definition series_apply (f : pyval -> result pyval) (s : Series)
  : result Series := mapM f s.

(** *** Sorting *)

(** One key: NaN goes last, whatever the direction. *)
Definition cmp_key (asc : bool) (x y : float) : comparison :=
  match is_nan x, is_nan y with
  | true, true => Eq
  | true, false => Gt
  | false, true => Lt
  | false, false =>
      default Eq (if asc then compare x y else compare y x)
  end.

(** The keys in turn, each a column position and a direction. *)
Fixpoint cmp_rows (ks : list (nat * bool)) : row -> row -> comparison :=
  match ks with
  | [] => trivial_cmp
  | (p, asc) :: ks' =>
      lex (on (fun r => coerce (cell p r)) (cmp_key asc)) (cmp_rows ks')
  end.

(** [df.sort_values(by=.., ascending=..)], a stable sort on several keys. *)
Definition sort_values (by_ : list (string * bool)) (df : DataFrame)
  : result DataFrame :=
  ks ← mapM (fun ca : string * bool => p ← col_pos (fst ca) df; Ok (p, snd ca)) by_;
  _ ← mapM (fun k : nat * bool => as_floats (map (cell (fst k)) (rows df))) ks;
  Ok (mkDF (columns df) (sort (cmp_rows ks) (rows df))).

End Pandas.

(** ** The object store *)

Module Store.
Import Py Pandas.
Local Open Scope nat_scope.

(** Tables live in the store and are handled through references; a
    reference is the position of its object. Nothing is ever freed. *)
Abbreviation ref := nat.
Abbreviation heap := (list DataFrame).

(** A computation reads and updates the store and returns or raises. *)
Definition M (A : Type) : Type := heap -> result A * heap.

#[export] Instance M_ret : MRet M := fun A a h => (Ok a, h).
#[export] Instance M_bind : MBind M := fun A B f m h =>
  match m h with
  | (Ok a, h') => f a h'
  | (Raise e, h') => (Raise e, h')
  end.

Definition lift {A : Type} (x : result A) : M A := fun h => (x, h).

Definition new (d : DataFrame) : M ref := fun h => (Ok (length h), h ++ [d]).

Definition get (r : ref) : M DataFrame := fun h =>
  match h !! r with
  | Some d => (Ok d, h)
  | None => (Raise NameError, h)
  end.

Definition put (r : ref) (d : DataFrame) : M unit := fun h =>
  (Ok tt, <[r:=d]> h).

(** The DataFrame methods of the script, on references. *)
Definition df_empty (r : ref) : M bool := d ← get r; mret (empty d).
Definition df_len (r : ref) : M nat := d ← get r; mret (len d).
Definition df_columns (r : ref) : M (list string) := d ← get r; mret (columns d).

(** [r.copy()] *)
Definition df_copy (r : ref) : M ref := d ← get r; new d.

(** [r[c]] *)
Definition df_getitem (r : ref) (c : string) : M Series :=
  d ← get r; lift (get_col c d).

(** [r[c] = s] *)
Definition df_setitem (r : ref) (c : string) (s : Series) : M unit :=
  d ← get r; d' ← lift (set_col c s d); put r d'.

(** [r[[c1, ..., cn]]] and [r[mask]], both new objects *)
Definition df_select (r : ref) (cs : list string) : M ref :=
  d ← get r; d' ← lift (select cs d); new d'.

Definition df_mask (r : ref) (mask : list bool) : M ref :=
  d ← get r; d' ← lift (mask_rows mask d); new d'.

(** [r.rename(columns=m, inplace=True)] *)
Definition df_rename (r : ref) (m : list (string * string)) : M unit :=
  d ← get r; put r (rename m d).

(** [r.sort_values(by=.., ascending=.., inplace=True)] *)
Definition df_sort_values (r : ref) (by_ : list (string * bool)) : M unit :=
  d ← get r; d' ← lift (sort_values by_ d); put r d'.

(** [r.reset_index(drop=True, inplace=True)] *)
Definition df_reset_index (r : ref) : M unit :=
  d ← get r; put r (reset_index d).

End Store.

(** ** The script *)

Module Strategy.
Import Float64 Py Pandas Store.
Local Open Scope nat_scope.
Local Open Scope string_scope.

Definition is_str (x : pyval) : bool :=
  match x with PStr _ => true | _ => false end.

Definition str_of (x : pyval) : string :=
  match x with PStr s => s | _ => "" end.

(** [extract_half_year_times], the local function of [filter_stocks]:
<<
    if pd.isna(x): return 0
    try:
        if isinstance(x, str) and '/' in x:
            parts = x.split('/')
            if len(parts) >= 2:
                return int(parts[1])
        return int(float(x))
    except:
        return 0
>> *)
Definition extract_half_year_times (x : pyval) : result Z :=
  if isna x then Ok 0%Z else
  try_except
    (if is_str x && contains "/" (str_of x) then
       let parts := split "/" (str_of x) in
       if (2 <=? length parts)%nat then int_of_str (nth 1 parts "")
       else f ← py_float x; int_of_float f
     else f ← py_float x; int_of_float f)
    0%Z.

(** The value returned, the bare [except] taken into account. *)
Definition half_year (x : pyval) : Z :=
  match extract_half_year_times x with
  | Ok z => z
  | Raise _ => 0%Z
  end.

Definition col_code : string := "代码".
Definition col_name : string := "名称".
Definition price_cols : list string := ["最新价"; "现价"; "收盘价"].
Definition mktcap_cols : list string := ["总市值"; "总市值(亿)"; "总市值-亿"].
Definition lianban_cols : list string := ["连续涨停天数"; "连板数"; "连板次数"].
Definition times_cols : list string := ["涨停统计"; "半年涨停次数"; "近半年涨停次数"].
Definition col_parsed : string := "近半年涨停次数_解析".

(** The names [col_times] can have at line 94. *)
Definition times_names : list string :=
  [col_parsed; "半年涨停次数"; "近半年涨停次数"].

Definition mem (c : string) (cols : list string) : bool :=
  existsb (String.eqb c) cols.

(** [next((c for c in cands if c in cols), None)] *)
Definition first_present (cands cols : list string) : option string :=
  List.find (fun c => mem c cols) cands.

(** [col_times == "涨停统计" and col_times in data.columns] *)
Definition is_composite (col_times : option string) (cols : list string) : bool :=
  match col_times with
  | Some c => String.eqb c "涨停统计" && mem c cols
  | None => false
  end.

(** The list [missing]. *)
Definition missing_of (col_price col_mktcap col_lianban col_times : option string)
  : list string :=
  (if col_price is None then ["最新价"] else []) ++
  (if col_mktcap is None then ["总市值"] else []) ++
  (if col_lianban is None then ["连续涨停天数"] else []) ++
  (if col_times is None then ["涨停统计(近半年涨停次数)"] else []).

Definition nonempty {A : Type} (l : list A) : bool :=
  match l with [] => false | _ => true end.

(** [keep_cols] and [rename_map]. *)
Definition keep_cols_of (col_price col_mktcap col_lianban col_times : option string)
  : list string :=
  [col_code; col_name] ++ option_list col_price ++ option_list col_mktcap ++
  option_list col_lianban ++ option_list col_times.

Definition set_opt (k : option string) (v : string) (m : list (string * string))
  : list (string * string) :=
  match k with Some k => setitem k v m | None => m end.

Definition rename_map_of (col_price col_mktcap col_lianban col_times : option string)
  : list (string * string) :=
  set_opt col_times "近半年涨停次数"
    (set_opt col_lianban "连板数"
       (set_opt col_mktcap "总市值(亿)"
          (set_opt col_price "最新价"
             [(col_code, "代码"); (col_name, "名称")]))).

Definition sort_keys : list (string * bool) :=
  [("近半年涨停次数", false); ("连板数", false); ("总市值(亿)", true)].

(** A loop over a list, and a condition with its default
    [pd.Series([True] * len(data), index=data.index)]. *)
Definition for_each {A : Type} (l : list A) (body : A -> M unit) : M unit :=
  foldr (fun x k => body x ;; k) (mret tt) l.

Definition cond_of (data : ref) (col : option string)
    (test : Series -> result (list bool)) : M (list bool) :=
  match col with
  | Some c => s ← df_getitem data c; lift (test s)
  | None => n ← df_len data; mret (repeat true n)
  end.

(** [filter_stocks(df)]; the [print] of the missing fields is left out. *)
Definition filter_stocks (df : ref) : M ref :=
  e ← df_empty df;
  if e : bool then mret df else
  data ← df_copy df;
  cols ← df_columns data;
  let col_price := first_present price_cols cols in
  let col_mktcap := first_present mktcap_cols cols in
  let col_lianban := first_present lianban_cols cols in
  let col_times := first_present times_cols cols in
  col_times ←
    (if is_composite col_times cols then
       s ← df_getitem data (default "" col_times);
       s' ← lift (series_apply (fun x => PInt <$> extract_half_year_times x) s);
       df_setitem data col_parsed s';;
       mret (Some col_parsed)
     else mret col_times);
  let missing := missing_of col_price col_mktcap col_lianban col_times in
  if nonempty missing then
    cols ← df_columns data;
    if forallb (fun c => mem c cols) [col_code; col_name]
    then df_select data [col_code; col_name]
    else mret data
  else
  for_each [col_price; col_mktcap; col_lianban; col_times] (fun c =>
    match c with
    | Some c => s ← df_getitem data c; df_setitem data c (to_numeric s)
    | None => mret tt
    end);;
  match col_mktcap with
  | Some c =>
      s ← df_getitem data c;
      max_mktcap ← lift (series_max s);
      if negb (is_nan max_mktcap) && ltb f1000 max_mktcap then
        s ← df_getitem data c;
        s' ← lift (series_div s f1e8);
        df_setitem data c s'
      else mret tt
  | None => mret tt
  end;;
  cond_price ← cond_of data col_price (fun s => series_lt s f30);
  cond_mktcap ← cond_of data col_mktcap (fun s => series_lt s f200);
  cond_times ← cond_of data col_times (fun s => series_ge s f3);
  cond_lianban_lt4 ← cond_of data col_lianban (fun s => series_lt s f4);
  cond_first_board ← cond_of data col_lianban (fun s => series_eq s f1);
  tmp ← df_mask data
    (series_and (series_and (series_and (series_and
       cond_price cond_mktcap) cond_times) cond_lianban_lt4) cond_first_board);
  filtered ← df_copy tmp;
  filtered ← df_select filtered
    (keep_cols_of col_price col_mktcap col_lianban col_times);
  df_rename filtered (rename_map_of col_price col_mktcap col_lianban col_times);;
  df_sort_values filtered sort_keys;;
  df_reset_index filtered;;
  mret filtered.

(** A call on the table [d]: the outcome and the table returned. *)
Definition call (h : heap) (df : ref) : result DataFrame :=
  match filter_stocks df h with
  | (Ok r, h') => match h' !! r with Some out => Ok out | None => Raise NameError end
  | (Raise e, _) => Raise e
  end.

(** *** The table returned, as a function of the table passed

    The same statements, on the value of [data] instead of the object. *)

Definition parse_times (col_times : option string) (d : DataFrame)
  : result (DataFrame * option string) :=
  if is_composite col_times (columns d) then
    s ← get_col (default "" col_times) d;
    s' ← series_apply (fun x => PInt <$> extract_half_year_times x) s;
    d' ← set_col col_parsed s' d;
    Ok (d', Some col_parsed)
  else Ok (d, col_times).

Definition numeric_col (c : option string) (d : DataFrame) : result DataFrame :=
  match c with
  | Some c => s ← get_col c d; set_col c (to_numeric s) d
  | None => Ok d
  end.

Fixpoint numeric_cols (cs : list (option string)) (d : DataFrame)
  : result DataFrame :=
  match cs with
  | [] => Ok d
  | c :: cs' => d' ← numeric_col c d; numeric_cols cs' d'
  end.

(** Lines 114-118: the unit of the market cap. *)
Definition normalize_unit (col_mktcap : option string) (d : DataFrame)
  : result DataFrame :=
  match col_mktcap with
  | Some c =>
      s ← get_col c d;
      max_mktcap ← series_max s;
      if negb (is_nan max_mktcap) && ltb f1000 max_mktcap then
        s ← get_col c d;
        s' ← series_div s f1e8;
        set_col c s' d
      else Ok d
  | None => Ok d
  end.

Definition condition (col : option string)
    (test : Series -> result (list bool)) (d : DataFrame) : result (list bool) :=
  match col with
  | Some c => s ← get_col c d; test s
  | None => Ok (repeat true (len d))
  end.

(** Lines 120-127: the five conditions and their conjunction. *)
Definition strategy_mask (col_price col_mktcap col_lianban col_times : option string)
    (d : DataFrame) : result (list bool) :=
  cond_price ← condition col_price (fun s => series_lt s f30) d;
  cond_mktcap ← condition col_mktcap (fun s => series_lt s f200) d;
  cond_times ← condition col_times (fun s => series_ge s f3) d;
  cond_lianban_lt4 ← condition col_lianban (fun s => series_lt s f4) d;
  cond_first_board ← condition col_lianban (fun s => series_eq s f1) d;
  Ok (series_and (series_and (series_and (series_and
        cond_price cond_mktcap) cond_times) cond_lianban_lt4) cond_first_board).

(** Lines 127-166: the rows kept, projected, renamed, sorted, renumbered. *)
Definition finish (col_price col_mktcap col_lianban col_times : option string)
    (mask : list bool) (d : DataFrame) : result DataFrame :=
  filtered ← mask_rows mask d;
  filtered ← select (keep_cols_of col_price col_mktcap col_lianban col_times) filtered;
  filtered ← sort_values sort_keys
    (rename (rename_map_of col_price col_mktcap col_lianban col_times) filtered);
  Ok (reset_index filtered).

Definition filter_table_with
    (mask_of : option string -> option string -> option string ->
               option string -> DataFrame -> result (list bool))
    (d : DataFrame) : result DataFrame :=
  if empty d then Ok d else
  let cols := columns d in
  let col_price := first_present price_cols cols in
  let col_mktcap := first_present mktcap_cols cols in
  let col_lianban := first_present lianban_cols cols in
  '(data, col_times) ← parse_times (first_present times_cols cols) d;
  if nonempty (missing_of col_price col_mktcap col_lianban col_times) then
    if forallb (fun c => mem c (columns data)) [col_code; col_name]
    then select [col_code; col_name] data
    else Ok data
  else
    data ← numeric_cols [col_price; col_mktcap; col_lianban; col_times] data;
    data ← normalize_unit col_mktcap data;
    mask ← mask_of col_price col_mktcap col_lianban col_times data;
    finish col_price col_mktcap col_lianban col_times mask data.

Definition filter_table : DataFrame -> result DataFrame :=
  filter_table_with strategy_mask.

(** The variant that drops [cond_lianban_lt4] and keeps the other four
    conditions, [cond_first_board] among them. *)
Definition strategy_mask_first_board_only
    (col_price col_mktcap col_lianban col_times : option string)
    (d : DataFrame) : result (list bool) :=
  cond_price ← condition col_price (fun s => series_lt s f30) d;
  cond_mktcap ← condition col_mktcap (fun s => series_lt s f200) d;
  cond_times ← condition col_times (fun s => series_ge s f3) d;
  cond_first_board ← condition col_lianban (fun s => series_eq s f1) d;
  Ok (series_and (series_and (series_and
        cond_price cond_mktcap) cond_times) cond_first_board).

Definition filter_table_first_board_only : DataFrame -> result DataFrame :=
  filter_table_with strategy_mask_first_board_only.

(** *** The statements on one row

    What the statements on whole columns do to a row, the columns given by
    their positions. *)

(** Every row has [n] cells. *)
Definition rect (n : nat) (rs : list row) : Prop :=
  Forall (fun r : row => length (snd r) = n) rs.

(** [data[c] = pd.to_numeric(data[c], errors="coerce")] *)
Definition numeric_at (p : nat) (r : row) : row :=
  set_cell p r (PFloat (coerce (cell p r))).

Definition numeric4 (pp pm pl pt : nat) (r : row) : row :=
  numeric_at pt (numeric_at pl (numeric_at pm (numeric_at pp r))).

(** [max_mktcap > 1000], and [data[c] = data[c] / 1e8] if so *)
Definition should_scale (p : nat) (rs : list row) : bool :=
  let mx := fold_left max2 (map (fun r => coerce (cell p r)) rs) nan in
  negb (is_nan mx) && ltb f1000 mx.

Definition rescale_at (p : nat) (flag : bool) (r : row) : row :=
  if flag then set_cell p r (PFloat (div (coerce (cell p r)) f1e8)) else r.

(** The conjunction of line 127 *)
Definition conditions_at (pp pm pl pt : nat) (r : row) : bool :=
  ltb (coerce (cell pp r)) f30 &&
  ltb (coerce (cell pm r)) f200 &&
  leb f3 (coerce (cell pt r)) &&
  ltb (coerce (cell pl r)) f4 &&
  eqb (coerce (cell pl r)) f1.

(** Lines 109-118 on the rows. *)
Definition normal_rows (pp pm pl pt : nat) (rs : list row) : list row :=
  let rs1 := map (numeric4 pp pm pl pt) rs in
  map (rescale_at pm (should_scale pm rs1)) rs1.

(** Line 91 on a row of the table with the columns [cols]. *)
Definition parse_row (cols : list string) (r : row) : row :=
  match index_of "涨停统计" cols with
  | Some ps =>
      let x := PInt (half_year (cell ps r)) in
      match index_of col_parsed cols with
      | Some q => set_cell q r x
      | None => add_cell r x
      end
  | None => r
  end.

(** [data] and [col_times] at line 94. *)
Definition parsed (d : DataFrame) : DataFrame :=
  if is_composite (first_present times_cols (columns d)) (columns d) then
    mkDF (if index_of col_parsed (columns d) is Some _ then columns d
          else columns d ++ [col_parsed])
         (map (parse_row (columns d)) (rows d))
  else d.

Definition parsed_times (d : DataFrame) : option string :=
  if is_composite (first_present times_cols (columns d)) (columns d)
  then Some col_parsed
  else first_present times_cols (columns d).

(** The fields resolved on [d]: [d0] is [data] at line 94, the four names
    and positions are those of the fields in it. *)
Record Located (d d0 : DataFrame) (np nm nl nt : string) (pp pm pl pt : nat)
  : Prop := {
  loc_parse : parse_times (first_present times_cols (columns d)) d = Ok (d0, Some nt);
  loc_price : first_present price_cols (columns d) = Some np;
  loc_mktcap : first_present mktcap_cols (columns d) = Some nm;
  loc_lianban : first_present lianban_cols (columns d) = Some nl;
  in_price : In np price_cols;
  in_mktcap : In nm mktcap_cols;
  in_lianban : In nl lianban_cols;
  in_times : In nt times_names;
  pos_price : index_of np (columns d0) = Some pp;
  pos_mktcap : index_of nm (columns d0) = Some pm;
  pos_lianban : index_of nl (columns d0) = Some pl;
  pos_times : index_of nt (columns d0) = Some pt;
  loc_rect : rect (length (columns d0)) (rows d0);
  loc_code : index_of col_code (columns d0) = index_of col_code (columns d);
  loc_name : index_of col_name (columns d0) = index_of col_name (columns d);
  loc_len : length (rows d0) = length (rows d)
}.

(** *** The table before the rows are selected

    [data] as it stands at line 120, in the columns and under the labels of
    the result. *)
Definition prepared (d : DataFrame) : result DataFrame :=
  let cols := columns d in
  let col_price := first_present price_cols cols in
  let col_mktcap := first_present mktcap_cols cols in
  let col_lianban := first_present lianban_cols cols in
  '(data, col_times) ← parse_times (first_present times_cols cols) d;
  data ← numeric_cols [col_price; col_mktcap; col_lianban; col_times] data;
  data ← normalize_unit col_mktcap data;
  data ← select (keep_cols_of col_price col_mktcap col_lianban col_times) data;
  Ok (rename (rename_map_of col_price col_mktcap col_lianban col_times) data).

(** The four logical fields resolve to columns of the table. *)
Definition resolved (d : DataFrame) : Prop :=
  is_Some (first_present price_cols (columns d)) /\
  is_Some (first_present mktcap_cols (columns d)) /\
  is_Some (first_present lianban_cols (columns d)) /\
  is_Some (first_present times_cols (columns d)).

(** The labels of the result and the fields of one of its rows. *)
Definition display_cols : list string :=
  ["代码"; "名称"; "最新价"; "总市值(亿)"; "连板数"; "近半年涨停次数"].

Definition price (r : row) : float := coerce (cell 2 r).
Definition market_cap (r : row) : float := coerce (cell 3 r).
Definition consecutive_limit_days (r : row) : float := coerce (cell 4 r).
Definition half_year_limit_count (r : row) : float := coerce (cell 5 r).

(** The five conditions on a row, in the order of line 127. *)
Definition five_conditions (r : row) : bool :=
  ltb (price r) f30 &&
  ltb (market_cap r) f200 &&
  leb f3 (half_year_limit_count r) &&
  ltb (consecutive_limit_days r) f4 &&
  eqb (consecutive_limit_days r) f1.

(** The order of the result: the count descending, then the days
    descending, then the market cap ascending. *)
Definition key_before (x y : row) : Prop :=
  ltb (half_year_limit_count y) (half_year_limit_count x) = true \/
  (eqb (half_year_limit_count x) (half_year_limit_count y) = true /\
   (ltb (consecutive_limit_days y) (consecutive_limit_days x) = true \/
    (eqb (consecutive_limit_days x) (consecutive_limit_days y) = true /\
     leb (market_cap x) (market_cap y) = true))).

(** Two rows tie on the three keys. *)
Definition same_keys (k x : row) : bool :=
  eqb (half_year_limit_count k) (half_year_limit_count x) &&
  eqb (consecutive_limit_days k) (consecutive_limit_days x) &&
  eqb (market_cap k) (market_cap x).

(** The sort keys by position in [display_cols]. *)
Definition sort_positions : list (nat * bool) :=
  [(5, false); (4, false); (3, true)].

End Strategy.


(** ** Sample tables *)

Module Samples.
Import Float64 Py Pandas.
Local Open Scope string_scope.

Definition fl (z : Z) : pyval := PFloat (of_Z z).

(** A snapshot as the provider gives it: the market cap in yuan, the count
    in the composite column; one price is a str, one is not a number. *)
Definition snapshot : DataFrame :=
  mkDF ["代码"; "名称"; "最新价"; "总市值"; "连板数"; "涨停统计"]
    [ (PInt 0, [PStr "000001"; PStr "A"; fl 10; fl 5000000000; PInt 1; PStr "5/3"]);
      (PInt 1, [PStr "000002"; PStr "B"; fl 40; fl 5000000000; PInt 1; PStr "5/3"]);
      (PInt 2, [PStr "000003"; PStr "C"; PStr "12.5"; fl 8000000000; PInt 1; PStr "9/7"]);
      (PInt 3, [PStr "000004"; PStr "D"; PStr "x"; fl 8000000000; PInt 1; PStr "9/7"]);
      (PInt 4, [PStr "000005"; PStr "E"; PInt 3; fl 8000000000; PInt 2; PStr "9/7"]) ].

(** No market-cap column; the second row has a price of 50. *)
Definition no_mktcap : DataFrame :=
  mkDF ["代码"; "名称"; "最新价"; "连板数"; "涨停统计"]
    [ (PInt 0, [PStr "000001"; PStr "A"; fl 10; PInt 1; PStr "5/3"]);
      (PInt 1, [PStr "000002"; PStr "B"; fl 50; PInt 1; PStr "5/3"]) ].

(** The four fields, but no code column; the price is not a number. *)
Definition no_code : DataFrame :=
  mkDF ["名称"; "最新价"; "总市值"; "连板数"; "涨停统计"]
    [ (PInt 0, [PStr "A"; PStr "x"; fl 50; PInt 1; PStr "5/3"]) ].

(** Market caps in hundred-million yuan, and in yuan. *)
Definition caps_small : DataFrame :=
  mkDF ["总市值"] [ (PInt 0, [fl 50]); (PInt 1, [fl 80]); (PInt 2, [fl 120]) ].

Definition caps_yuan : DataFrame :=
  mkDF ["总市值"] [ (PInt 0, [fl 5000000000]); (PInt 1, [fl 8000000000]) ].

Definition caps_scaled : DataFrame :=
  mkDF ["总市值"] [ (PInt 0, [fl 50]); (PInt 1, [fl 80]) ].

(** In yuan with the largest entry first, and with an entry that is not a
    number first; 5e-07 is [S754_finite false 4722366482869645 (-73)]. *)
Definition caps_yuan_first : DataFrame :=
  mkDF ["总市值"] [ (PInt 0, [fl 5000000000]); (PInt 1, [fl 50]) ].

Definition caps_yuan_first_scaled : DataFrame :=
  mkDF ["总市值"]
    [ (PInt 0, [fl 50]);
      (PInt 1, [PFloat (S754_finite false 4722366482869645 (-73))]) ].

Definition caps_nan_first : DataFrame :=
  mkDF ["总市值"] [ (PInt 0, [PFloat nan]); (PInt 1, [fl 8000000000]) ].

Definition caps_nan_first_scaled : DataFrame :=
  mkDF ["总市值"] [ (PInt 0, [PFloat nan]); (PInt 1, [fl 80]) ].

Definition caps_null : DataFrame :=
  mkDF ["总市值"] [ (PInt 0, [PFloat nan]); (PInt 1, [PFloat nan]) ].

(** Neither a code nor a market-cap column. *)
Definition name_only : DataFrame :=
  mkDF ["名称"; "最新价"; "涨停统计"]
    [ (PInt 7, [PStr "A"; fl 10; PStr "5/3"]);
      (PInt 9, [PStr "B"; fl 50; PStr "abc"]) ].

End Samples.
(** * Properties *)

(** ** The order of the floats *)

Module Float64Facts.
Import Float64.

(** The order of the comparison

    [SFcompare] orders the floats that are not NaN as a total preorder
    (the two zeros are equal). *)

Lemma compare_some x y :
  is_nan x = false -> is_nan y = false -> exists c, compare x y = Some c.
Proof.
  destruct x, y; simpl; intros; try discriminate; eauto.
Qed.

Lemma compare_nan_l x y : is_nan x = true -> compare x y = None.
Proof. destruct x; try discriminate. reflexivity. Qed.

Lemma compare_nan_r x y : is_nan y = true -> compare x y = None.
Proof. destruct y; try discriminate. destruct x; reflexivity. Qed.

Lemma compare_not_nan x y c :
  compare x y = Some c -> is_nan x = false /\ is_nan y = false.
Proof. destruct x, y; simpl; intros; try discriminate; auto. Qed.

Lemma compare_refl x : is_nan x = false -> compare x x = Some Eq.
Proof.
  destruct x as [s|s| |s m e]; simpl; intros; try discriminate; auto.
  - destruct s; reflexivity.
  - rewrite Z.compare_refl.
    change (Pos.compare_cont Eq m m) with (Pos.compare m m).
    rewrite Pos.compare_refl. destruct s; reflexivity.
Qed.

Lemma compare_antisym x y c :
  compare x y = Some c -> compare y x = Some (CompOpp c).
Proof.
  destruct x as [s1|s1| |s1 m1 e1], y as [s2|s2| |s2 m2 e2]; simpl;
    intros H; try discriminate; injection H as <-;
    try (destruct s1; reflexivity); try (destruct s2; reflexivity);
    try (destruct s1, s2; reflexivity).
  change (Pos.compare_cont Eq m1 m2) with (Pos.compare m1 m2).
  change (Pos.compare_cont Eq m2 m1) with (Pos.compare m2 m1).
  rewrite (Z.compare_antisym e1 e2), (Pos.compare_antisym m1 m2).
  destruct s1, s2; simpl; try reflexivity;
    destruct (e1 ?= e2); simpl; try reflexivity;
    destruct (m1 ?= m2)%positive; reflexivity.
Qed.

Lemma compare_rank x y c :
  compare x y = Some c -> lex3 (rank x) (rank y) = c.
Proof.
  destruct x as [s1|s1| |s1 m1 e1], y as [s2|s2| |s2 m2 e2]; simpl;
    intros H; try discriminate; injection H as <-;
    try (destruct s1; reflexivity); try (destruct s2; reflexivity);
    try (destruct s1, s2; reflexivity).
  change (Pos.compare_cont Eq m1 m2) with (Pos.compare m1 m2).
  destruct s1, s2; simpl; try reflexivity.
  rewrite Z.compare_opp, (Z.compare_antisym e1 e2).
  destruct (e1 ?= e2); reflexivity.
Qed.

Lemma lex3_lex a b :
  lex3 a b =
  Order.lex (Order.on (fun t : Z * Z * Z => fst (fst t)) Z.compare)
    (Order.lex (Order.on (fun t : Z * Z * Z => snd (fst t)) Z.compare)
       (Order.on (fun t : Z * Z * Z => snd t) Z.compare)) a b.
Proof.
  destruct a as [[a1 a2] a3], b as [[b1 b2] b3].
  unfold lex3, Order.lex, Order.on. simpl.
  destruct (a1 ?= b1)%Z; try reflexivity.
Qed.

Lemma lex3_opp a b : lex3 (opp3 a) (opp3 b) = lex3 b a.
Proof.
  destruct a as [[a1 a2] a3], b as [[b1 b2] b3]. unfold lex3, opp3.
  rewrite !Z.compare_opp. reflexivity.
Qed.

Lemma rank_bound x :
  is_nan x = false -> (-2 <= fst (fst (rank x)) <= 2)%Z.
Proof. destruct x as [s|s| |s m e]; try destruct s; simpl; intros; lia || discriminate. Qed.

Lemma lex3_below_nan a :
  (-2 <= fst (fst a) <= 2)%Z -> lex3 a (3, 0, 0)%Z = Lt /\ lex3 (3, 0, 0)%Z a = Gt.
Proof.
  destruct a as [[a1 a2] a3]. cbn [fst snd]. intros H. unfold lex3.
  assert ((a1 ?= 3)%Z = Lt) as -> by (apply Z.compare_lt_iff; lia).
  assert ((3 ?= a1)%Z = Gt) as -> by (apply Z.compare_gt_iff; lia).
  split; reflexivity.
Qed.

End Float64Facts.

(** ** Weak orders and the sort *)

Module OrderFacts.
Import Order.

Section Facts.
Context {A : Type} (cmp : A -> A -> comparison) `{!WeakOrder cmp}.

Lemma cmp_eq_r x y z : cmp y z = Eq -> cmp x y = cmp x z.
Proof.
  intros H. rewrite (cmp_opp y x), (cmp_opp z x).
  f_equal. apply cmp_eq_l. exact H.
Qed.

Lemma cmp_eq_sym x y : cmp x y = Eq -> cmp y x = Eq.
Proof. intros H. rewrite (cmp_opp x y), H. reflexivity. Qed.

Lemma leb_of_total x y : leb_of cmp x y = false -> leb_of cmp y x = true.
Proof.
  unfold leb_of. rewrite (cmp_opp x y). destruct (cmp x y); simpl; congruence.
Qed.

Lemma leb_of_refl x : leb_of cmp x x = true.
Proof. unfold leb_of. rewrite cmp_refl. reflexivity. Qed.

Lemma leb_of_trans x y z :
  leb_of cmp x y = true -> leb_of cmp y z = true -> leb_of cmp x z = true.
Proof.
  unfold leb_of. intros Hxy Hyz.
  destruct (cmp x y) eqn:E1; try discriminate.
  - rewrite (cmp_eq_l x y z E1). exact Hyz.
  - destruct (cmp y z) eqn:E2; try discriminate.
    + rewrite (cmp_eq_r x y z E2) in E1. rewrite E1. reflexivity.
    + rewrite (cmp_lt_trans x y z E1 E2). reflexivity.
Qed.

Lemma eqb_of_leb x y :
  eqb_of cmp x y = true -> leb_of cmp x y = true /\ leb_of cmp y x = true.
Proof.
  unfold eqb_of, leb_of. rewrite (cmp_opp x y).
  destruct (cmp x y); simpl; intros; try discriminate; auto.
Qed.

End Facts.

#[export] Instance trivial_weak {A : Type} : WeakOrder (@trivial_cmp A).
Proof. split; unfold trivial_cmp; intros; reflexivity || discriminate. Qed.

#[export] Instance on_weak {A B : Type} (f : A -> B) cmp `{!WeakOrder cmp} :
  WeakOrder (on f cmp).
Proof.
  split; unfold on; intros.
  - apply cmp_refl.
  - apply cmp_opp.
  - eapply cmp_lt_trans; eassumption.
  - apply cmp_eq_l; assumption.
Qed.

#[export] Instance lex_weak {A : Type} (c1 c2 : A -> A -> comparison)
  `{!WeakOrder c1} `{!WeakOrder c2} : WeakOrder (lex c1 c2).
Proof.
  split; unfold lex.
  - intros x. rewrite !cmp_refl. reflexivity.
  - intros x y. rewrite (cmp_opp (cmp:=c1) x y), (cmp_opp (cmp:=c2) x y).
    destruct (c1 x y); reflexivity.
  - intros x y z.
    destruct (c1 x y) eqn:E1; try discriminate.
    + rewrite (cmp_eq_l (cmp:=c1) x y z E1).
      destruct (c1 y z) eqn:E2; try discriminate; auto.
      apply cmp_lt_trans.
    + destruct (c1 y z) eqn:E2; try discriminate; intros _ H.
      * rewrite <- (cmp_eq_r c1 x y z E2), E1. reflexivity.
      * rewrite (cmp_lt_trans (cmp:=c1) x y z E1 E2). reflexivity.
  - intros x y z.
    destruct (c1 x y) eqn:E1; try discriminate. intros E2.
    rewrite (cmp_eq_l (cmp:=c1) x y z E1), (cmp_eq_l (cmp:=c2) x y z E2).
    reflexivity.
Qed.

#[export] Instance Z_weak : WeakOrder Z.compare.
Proof.
  split.
  - apply Z.compare_refl.
  - intros x y. apply Z.compare_antisym.
  - intros x y z. rewrite !Z.compare_lt_iff. lia.
  - intros x y z H. apply Z.compare_eq in H. subst. reflexivity.
Qed.

Section Sort.
Context {A : Type} (cmp : A -> A -> comparison).
#[local] Abbreviation insert := (Order.insert cmp).
#[local] Abbreviation sort := (Order.sort cmp).
#[local] Abbreviation le := (Order.le cmp).

Lemma insert_perm x l : Permutation (insert x l) (x :: l).
Proof.
  induction l as [|y l IH]; simpl; [reflexivity|].
  destruct (leb_of cmp x y); [reflexivity|].
  rewrite IH. apply perm_swap.
Qed.

Lemma sort_perm l : Permutation (sort l) l.
Proof.
  induction l as [|x l IH]; simpl; [reflexivity|].
  rewrite insert_perm, IH. reflexivity.
Qed.

Lemma sort_length l : length (sort l) = length l.
Proof. apply Permutation_length, sort_perm. Qed.

Lemma insert_head x y l : le x y -> insert x (y :: l) = x :: y :: l.
Proof. unfold Order.le. simpl. intros ->. reflexivity. Qed.

Lemma sort_sorted_id l : Sorted le l -> sort l = l.
Proof.
  induction 1 as [|x l Hs IH Hd]; simpl; [reflexivity|].
  rewrite IH. destruct Hd as [|y l' Hxy]; [reflexivity|].
  apply insert_head, Hxy.
Qed.

Context `{!WeakOrder cmp}.

Lemma insert_sorted x l : Sorted le l -> Sorted le (insert x l).
Proof.
  induction 1 as [|y l Hs IH Hd]; simpl.
  - repeat constructor.
  - destruct (leb_of cmp x y) eqn:E.
    + repeat constructor; assumption.
    + constructor; [exact IH|].
      apply (leb_of_total cmp) in E.
      destruct Hd as [|z l' Hyz]; simpl.
      * constructor. exact E.
      * destruct (leb_of cmp x z); constructor; assumption.
Qed.

Lemma sort_sorted l : Sorted le (sort l).
Proof.
  induction l as [|x l IH]; simpl; [constructor|].
  apply insert_sorted, IH.
Qed.

Lemma le_trans x y z : le x y -> le y z -> le x z.
Proof. apply (leb_of_trans cmp). Qed.

Lemma sort_strongly_sorted l : StronglySorted le (sort l).
Proof.
  apply Sorted_StronglySorted; [|apply sort_sorted].
  intros x y z. apply le_trans.
Qed.

Lemma sort_idem l : sort (sort l) = sort l.
Proof. apply sort_sorted_id, sort_sorted. Qed.

Lemma insert_stable k x l :
  List.filter (eqb_of cmp k) (insert x l) = List.filter (eqb_of cmp k) (x :: l).
Proof.
  induction l as [|y l IH]; [reflexivity|].
  simpl insert. destruct (leb_of cmp x y) eqn:E; [reflexivity|].
  simpl in *. rewrite IH.
  destruct (eqb_of cmp k x) eqn:Ex, (eqb_of cmp k y) eqn:Ey; try reflexivity.
  exfalso. unfold eqb_of, leb_of in *.
  destruct (cmp k x) eqn:Kx; try discriminate.
  destruct (cmp k y) eqn:Ky; try discriminate.
  rewrite <- (cmp_eq_l k x y Kx), Ky in E. discriminate.
Qed.

(** Stability: the elements that tie with [k] come out in the order they
    came in. *)
Lemma sort_stable k l :
  List.filter (eqb_of cmp k) (sort l) = List.filter (eqb_of cmp k) l.
Proof.
  induction l as [|x l IH]; [reflexivity|].
  simpl sort. rewrite insert_stable. simpl. rewrite IH. reflexivity.
Qed.

End Sort.

(** A comparison that agrees with a weak order is one. *)
Lemma weak_ext {A : Type} (c1 c2 : A -> A -> comparison) :
  (forall x y, c1 x y = c2 x y) -> WeakOrder c2 -> WeakOrder c1.
Proof.
  intros E W. split; intros *; rewrite !E.
  - apply cmp_refl.
  - apply cmp_opp.
  - apply cmp_lt_trans.
  - apply cmp_eq_l.
Qed.

#[export] Instance lex3_weak : WeakOrder Float64.lex3.
Proof.
  eapply weak_ext; [apply Float64Facts.lex3_lex|]. apply _.
Qed.

End OrderFacts.

(** ** The order of the sort keys *)

Module KeyFacts.
Import Float64 Float64Facts Py Pandas Order OrderFacts.

Lemma opp3_bound a :
  (-2 <= fst (fst a) <= 2)%Z -> (-2 <= fst (fst (opp3 a)) <= 2)%Z.
Proof. destruct a as [[a1 a2] a3]. simpl. lia. Qed.

Lemma key_rank_bound asc x :
  is_nan x = false -> (-2 <= fst (fst (key_rank asc x)) <= 2)%Z.
Proof.
  intros H. unfold key_rank. rewrite H.
  destruct asc; [|apply opp3_bound]; apply rank_bound, H.
Qed.

Lemma key_rank_nan asc x : is_nan x = true -> key_rank asc x = (3, 0, 0)%Z.
Proof. intros H. unfold key_rank. rewrite H. reflexivity. Qed.

Lemma cmp_key_rank asc x y :
  cmp_key asc x y = lex3 (key_rank asc x) (key_rank asc y).
Proof.
  unfold cmp_key.
  destruct (is_nan x) eqn:Ex, (is_nan y) eqn:Ey.
  - rewrite !key_rank_nan by assumption. reflexivity.
  - rewrite (key_rank_nan asc x Ex). symmetry.
    apply lex3_below_nan, key_rank_bound, Ey.
  - rewrite (key_rank_nan asc y Ey). symmetry.
    apply lex3_below_nan, key_rank_bound, Ex.
  - unfold key_rank. rewrite Ex, Ey. destruct asc.
    + destruct (compare_some x y Ex Ey) as [c Hc]. rewrite Hc. simpl.
      symmetry. apply compare_rank, Hc.
    + destruct (compare_some y x Ey Ex) as [c Hc]. rewrite Hc. simpl.
      rewrite lex3_opp. symmetry. apply compare_rank, Hc.
Qed.

#[export] Instance cmp_key_weak asc : WeakOrder (cmp_key asc).
Proof.
  apply (weak_ext _ (on (key_rank asc) lex3)); [apply cmp_key_rank|apply _].
Qed.

#[export] Instance cmp_rows_weak ks : WeakOrder (cmp_rows ks).
Proof.
  induction ks as [|[p asc] ks IH]; simpl; apply _.
Qed.

End KeyFacts.

(** ** Comparisons of floats *)

Module FloatOrder.
Import Float64 Float64Facts Py Pandas Order OrderFacts KeyFacts.

Lemma ltb_compare x y : ltb x y = true <-> compare x y = Some Lt.
Proof.
  unfold ltb, SFltb, compare. destruct (SFcompare x y) as [[]|]; split; congruence.
Qed.

Lemma eqb_compare x y : eqb x y = true <-> compare x y = Some Eq.
Proof.
  unfold eqb, SFeqb, compare. destruct (SFcompare x y) as [[]|]; split; congruence.
Qed.

Lemma leb_compare x y :
  leb x y = true <-> compare x y = Some Lt \/ compare x y = Some Eq.
Proof.
  unfold leb, SFleb, compare.
  destruct (SFcompare x y) as [[]|]; split; intros; auto; try congruence;
    destruct H; congruence.
Qed.

Lemma compare_of_rank x y :
  is_nan x = false -> is_nan y = false ->
  compare x y = Some (lex3 (rank x) (rank y)).
Proof.
  intros Hx Hy. destruct (compare_some x y Hx Hy) as [c Hc].
  rewrite Hc. f_equal. symmetry. apply compare_rank, Hc.
Qed.

(** [x == y] makes [x] and [y] compare alike with any [z]. *)
Lemma eqb_compare_l x y z :
  eqb x y = true -> is_nan z = false -> compare x z = compare y z.
Proof.
  intros H Hz. apply eqb_compare in H.
  destruct (compare_not_nan _ _ _ H) as [Hx Hy].
  rewrite !compare_of_rank by assumption. f_equal.
  apply (cmp_eq_l (cmp:=lex3)). apply compare_rank, H.
Qed.

Lemma eqb_sym x y : eqb x y = true -> eqb y x = true.
Proof.
  rewrite !eqb_compare. intros H. apply compare_antisym in H. exact H.
Qed.

Lemma ltb_trans x y z : ltb x y = true -> ltb y z = true -> ltb x z = true.
Proof.
  rewrite !ltb_compare. intros H1 H2.
  destruct (compare_not_nan _ _ _ H1) as [Hx Hy].
  destruct (compare_not_nan _ _ _ H2) as [_ Hz].
  rewrite compare_of_rank by assumption. f_equal.
  apply (cmp_lt_trans (cmp:=lex3) _ (rank y)); apply compare_rank; assumption.
Qed.

Lemma ltb_asym x y : ltb x y = true -> ltb y x = false.
Proof.
  rewrite ltb_compare. intros H. apply compare_antisym in H.
  unfold ltb, SFltb. fold (compare y x). rewrite H. reflexivity.
Qed.

(** First board implies a streak below four days. *)
Lemma eqb_1_ltb_4 x : eqb x f1 = true -> ltb x f4 = true.
Proof.
  intros H. apply ltb_compare.
  rewrite (eqb_compare_l x f1 f4 H eq_refl). reflexivity.
Qed.

(** Below 200 is not above 1000. *)
Lemma ltb_200_not_1000 x : ltb x f200 = true -> ltb f1000 x = false.
Proof.
  intros H. apply ltb_asym. apply (ltb_trans x f200 f1000 H). reflexivity.
Qed.

(** *** The order of the numbers *)

Lemma ltb_not_nan x y : ltb x y = true -> is_nan x = false /\ is_nan y = false.
Proof. intros H. apply ltb_compare, compare_not_nan in H. exact H. Qed.

Lemma leb_not_nan x y : leb x y = true -> is_nan x = false /\ is_nan y = false.
Proof.
  intros H. apply leb_compare in H as [H|H]; apply compare_not_nan in H; exact H.
Qed.

Lemma leb_rank x y :
  is_nan x = false -> is_nan y = false ->
  leb x y = leb_of lex3 (rank x) (rank y).
Proof.
  intros Hx Hy. unfold leb, SFleb, leb_of. fold (compare x y).
  rewrite (compare_of_rank x y Hx Hy). destruct (lex3 _ _); reflexivity.
Qed.

Lemma ltb_rank x y :
  is_nan x = false -> is_nan y = false ->
  ltb x y = negb (leb_of lex3 (rank y) (rank x)).
Proof.
  intros Hx Hy. unfold ltb, SFltb, leb_of. fold (compare x y).
  rewrite (compare_of_rank x y Hx Hy), (cmp_opp (cmp:=lex3) (rank x) (rank y)).
  destruct (lex3 _ _); reflexivity.
Qed.

Lemma leb_refl x : is_nan x = false -> leb x x = true.
Proof. intros Hx. rewrite leb_rank by assumption. apply leb_of_refl, _. Qed.

Lemma leb_trans x y z : leb x y = true -> leb y z = true -> leb x z = true.
Proof.
  intros H1 H2.
  destruct (leb_not_nan _ _ H1) as [Hx Hy]. destruct (leb_not_nan _ _ H2) as [_ Hz].
  rewrite leb_rank in * by assumption.
  eapply leb_of_trans; [apply _|exact H1|exact H2].
Qed.

Lemma ltb_leb x y : ltb x y = true -> leb x y = true.
Proof.
  rewrite ltb_compare, leb_compare. auto.
Qed.

Lemma not_ltb_leb x y :
  is_nan x = false -> is_nan y = false -> ltb x y = false -> leb y x = true.
Proof.
  intros Hx Hy H. rewrite ltb_rank in H by assumption.
  rewrite leb_rank by assumption. apply negb_false_iff, H.
Qed.

Lemma ltb_leb_trans x y z : ltb x y = true -> leb y z = true -> ltb x z = true.
Proof.
  intros H1 H2.
  destruct (ltb_not_nan _ _ H1) as [Hx Hy]. destruct (leb_not_nan _ _ H2) as [_ Hz].
  rewrite ltb_rank in * by assumption. rewrite leb_rank in H2 by assumption.
  apply negb_true_iff in H1. apply negb_true_iff.
  destruct (leb_of lex3 (rank z) (rank x)) eqn:E; [|reflexivity].
  rewrite <- H1. symmetry. eapply leb_of_trans; [apply _|exact H2|exact E].
Qed.

(** *** The maximum of a column *)

(** One step: the larger of two numbers, a NaN giving way. *)
Lemma max2_cases acc x :
  (max2 acc x = acc \/ max2 acc x = x) /\
  (is_nan (max2 acc x) = true -> is_nan acc = true /\ is_nan x = true) /\
  (is_nan acc = false -> leb acc (max2 acc x) = true) /\
  (is_nan x = false -> leb x (max2 acc x) = true).
Proof.
  unfold max2. destruct (is_nan x) eqn:Hx.
  - repeat split; auto; try discriminate. apply leb_refl.
  - destruct (is_nan acc) eqn:Ha.
    + repeat split; auto; try discriminate; try congruence.
      intros _. apply leb_refl, Hx.
    + destruct (ltb acc x) eqn:Hlt.
      * repeat split; auto; try congruence.
        -- intros _. apply ltb_leb, Hlt.
        -- intros _. apply leb_refl, Hx.
      * repeat split; auto; try congruence.
        -- intros _. apply leb_refl, Ha.
        -- intros _. apply not_ltb_leb; assumption.
Qed.

(** The fold: NaN when the start and every entry are NaN; otherwise the
    start or an entry, which neither the start nor an entry exceeds. *)
Lemma fold_max2_spec l : forall acc,
  let r := fold_left max2 l acc in
  (is_nan r = true ->
     is_nan acc = true /\ Forall (fun x => is_nan x = true) l) /\
  (is_nan r = false ->
     (r = acc \/ In r l) /\
     (is_nan acc = false -> leb acc r = true) /\
     Forall (fun x => is_nan x = false -> leb x r = true) l).
Proof.
  induction l as [|x l IH]; intros acc; cbn [fold_left].
  - split.
    + intros H. split; [exact H|constructor].
    + intros H. split; [auto|]. split; [intros _; apply leb_refl, H|constructor].
  - destruct (IH (max2 acc x)) as [IHn IHv].
    destruct (max2_cases acc x) as (Hc & Hn & Ha & Hx).
    split.
    + intros H. destruct (IHn H) as [Hm Hl]. destruct (Hn Hm) as [Hacc Hxn].
      split; [exact Hacc|]. constructor; assumption.
    + intros H. destruct (IHv H) as (Hr & Hle & Hl).
      assert (is_nan (max2 acc x) = false -> leb (max2 acc x) (fold_left max2 l (max2 acc x)) = true)
        as Hle' by exact Hle.
      split; [|split].
      * destruct Hr as [Hr|Hr]; [|right; right; exact Hr].
        destruct Hc as [Hc|Hc]; rewrite Hr, Hc; [left|right; left]; reflexivity.
      * intros Hacc. pose proof (Ha Hacc) as H1.
        eapply leb_trans; [exact H1|]. apply Hle'.
        apply leb_not_nan in H1. tauto.
      * constructor; [|exact Hl].
        intros Hxn. pose proof (Hx Hxn) as H1.
        eapply leb_trans; [exact H1|]. apply Hle'.
        apply leb_not_nan in H1. tauto.
Qed.

(** [s.max()] on the values [l]: null when no entry is a number, otherwise
    an entry that no number among the entries exceeds. *)
Lemma series_max_spec l :
  let mx := fold_left max2 l nan in
  if is_nan mx then Forall (fun x => is_nan x = true) l
  else In mx l /\ Forall (fun x => is_nan x = false -> leb x mx = true) l.
Proof.
  intros mx. destruct (fold_max2_spec l nan) as [Hn Hv]. fold mx in Hn, Hv.
  destruct (is_nan mx) eqn:E.
  - apply Hn. reflexivity.
  - destruct (Hv eq_refl) as ([Hr|Hr] & _ & Hl).
    + rewrite Hr in E. discriminate.
    + split; assumption.
Qed.

(** The maximum exceeds a bound exactly when an entry does. *)
Lemma series_max_above l b :
  ltb b (fold_left max2 l nan) = true <-> Exists (fun x => ltb b x = true) l.
Proof.
  pose proof (series_max_spec l) as H. cbv zeta in H. split.
  - intros Hlt. destruct (ltb_not_nan _ _ Hlt) as [_ Hm]. rewrite Hm in H.
    apply List.Exists_exists. exists (fold_left max2 l nan). tauto.
  - intros Hex. apply List.Exists_exists in Hex as (x & Hin & Hlt).
    destruct (ltb_not_nan _ _ Hlt) as [_ Hx].
    destruct (is_nan (fold_left max2 l nan)) eqn:E.
    + rewrite List.Forall_forall in H. rewrite (H x Hin) in Hx. discriminate.
    + destruct H as [_ H]. rewrite List.Forall_forall in H.
      eapply ltb_leb_trans; [exact Hlt|]. apply H; assumption.
Qed.


Lemma fold_max2_in l acc :
  fold_left max2 l acc = acc \/ In (fold_left max2 l acc) l.
Proof.
  revert acc. induction l as [|x l IH]; intros acc; simpl; [auto|].
  destruct (IH (max2 acc x)) as [E|Hin]; [|auto].
  rewrite E. unfold max2.
  destruct (is_nan x); [auto|].
  destruct (is_nan acc); [auto|].
  destruct (ltb acc x); auto.
Qed.

Lemma no_scale_below_200 p (rs : list row) :
  Forall (fun r => ltb (coerce (cell p r)) f200 = true) rs ->
  Strategy.should_scale p rs = false.
Proof.
  intros H. unfold Strategy.should_scale.
  destruct (fold_max2_in (map (fun r => coerce (cell p r)) rs) nan) as [->|Hin].
  - reflexivity.
  - apply in_map_iff in Hin as (r & <- & Hr).
    rewrite List.Forall_forall in H.
    rewrite (ltb_200_not_1000 _ (H r Hr)). apply andb_false_r.
Qed.

End FloatOrder.
(** ** The run on the store and the table returned *)

Module Run.
Import Float64 Py Pandas Store Strategy.
Local Open Scope nat_scope.

Lemma bind_run {A B : Type} (m : M A) (k : A -> M B) (h : heap) :
  (m ≫= k) h =
  match m h with
  | (Ok a, h') => k a h'
  | (Raise e, h') => (Raise e, h')
  end.
Proof. reflexivity. Qed.

Lemma get_at (h : heap) r d : h !! r = Some d -> get r h = (Ok d, h).
Proof. unfold get. intros ->. reflexivity. Qed.

Lemma get_last (pre : heap) d : get (length pre) (pre ++ [d]) = (Ok d, pre ++ [d]).
Proof. apply get_at. apply list_lookup_middle. reflexivity. Qed.

Lemma put_last (pre : heap) d d' :
  put (length pre) d' (pre ++ [d]) = (Ok tt, pre ++ [d']).
Proof.
  unfold put. f_equal. rewrite insert_app_r_alt by lia.
  rewrite Nat.sub_diag. reflexivity.
Qed.

Lemma ret_run {A : Type} (a : A) (h : heap) : (mret a : M A) h = (Ok a, h).
Proof. reflexivity. Qed.

Lemma df_empty_at (h : heap) r d :
  h !! r = Some d -> df_empty r h = (Ok (empty d), h).
Proof. intros Hr. unfold df_empty. rewrite bind_run, (get_at h r d Hr). reflexivity. Qed.

Lemma df_copy_at (h : heap) r d :
  h !! r = Some d -> df_copy r h = (Ok (length h), h ++ [d]).
Proof. intros Hr. unfold df_copy. rewrite bind_run, (get_at h r d Hr). reflexivity. Qed.

(** The methods, on the object allocated last. *)
Section Last.
Variables (pre : heap) (d : DataFrame).
Let r := length pre.
Let h := pre ++ [d].

Lemma df_columns_last : df_columns r h = (Ok (columns d), h).
Proof. unfold df_columns. rewrite bind_run. subst r h. rewrite get_last. reflexivity. Qed.

Lemma df_len_last : df_len r h = (Ok (len d), h).
Proof. unfold df_len. rewrite bind_run. subst r h. rewrite get_last. reflexivity. Qed.

Lemma df_getitem_last c : df_getitem r c h = (get_col c d, h).
Proof. unfold df_getitem. rewrite bind_run. subst r h. rewrite get_last. reflexivity. Qed.

Lemma df_setitem_last c s :
  df_setitem r c s h =
  match set_col c s d with
  | Ok d' => (Ok tt, pre ++ [d'])
  | Raise e => (Raise e, h)
  end.
Proof.
  unfold df_setitem. rewrite bind_run. subst r h. rewrite get_last.
  rewrite bind_run. unfold lift. destruct (set_col c s d); [|reflexivity].
  apply put_last.
Qed.

Lemma df_select_last cs :
  df_select r cs h =
  match select cs d with
  | Ok d' => (Ok (length h), h ++ [d'])
  | Raise e => (Raise e, h)
  end.
Proof.
  unfold df_select. rewrite bind_run. subst r h. rewrite get_last.
  rewrite bind_run. unfold lift. destruct (select cs d); reflexivity.
Qed.

Lemma df_mask_last mask :
  df_mask r mask h =
  match mask_rows mask d with
  | Ok d' => (Ok (length h), h ++ [d'])
  | Raise e => (Raise e, h)
  end.
Proof.
  unfold df_mask. rewrite bind_run. subst r h. rewrite get_last.
  rewrite bind_run. unfold lift. destruct (mask_rows mask d); reflexivity.
Qed.

Lemma df_copy_last : df_copy r h = (Ok (length h), h ++ [d]).
Proof. unfold df_copy. rewrite bind_run. subst r h. rewrite get_last. reflexivity. Qed.

Lemma df_rename_last m : df_rename r m h = (Ok tt, pre ++ [rename m d]).
Proof.
  unfold df_rename. rewrite bind_run. subst r h. rewrite get_last. apply put_last.
Qed.

Lemma df_reset_index_last : df_reset_index r h = (Ok tt, pre ++ [reset_index d]).
Proof.
  unfold df_reset_index. rewrite bind_run. subst r h. rewrite get_last. apply put_last.
Qed.

Lemma df_sort_values_last by_ :
  df_sort_values r by_ h =
  match sort_values by_ d with
  | Ok d' => (Ok tt, pre ++ [d'])
  | Raise e => (Raise e, h)
  end.
Proof.
  unfold df_sort_values. rewrite bind_run. subst r h. rewrite get_last.
  rewrite bind_run. unfold lift. destruct (sort_values by_ d); [|reflexivity].
  apply put_last.
Qed.

Lemma cond_of_last col test : cond_of r col test h = (condition col test d, h).
Proof.
  unfold cond_of, condition. destruct col as [c|].
  - rewrite bind_run, df_getitem_last. unfold lift.
    destruct (get_col c d); reflexivity.
  - rewrite bind_run, df_len_last. reflexivity.
Qed.

Definition numeric_body (data : ref) (c : option string) : M unit :=
  match c with
  | Some c => s ← df_getitem data c; df_setitem data c (to_numeric s)
  | None => mret tt
  end.

End Last.

Lemma numeric_loop (pre : heap) cs : forall d,
  exists d'',
    for_each cs (numeric_body (length pre)) (pre ++ [d]) =
    match numeric_cols cs d with
    | Ok d' => (Ok tt, pre ++ [d'])
    | Raise e => (Raise e, pre ++ [d''])
    end.
Proof.
  induction cs as [|c cs IH]; intros d.
  - exists d. reflexivity.
  - simpl for_each. simpl numeric_cols. rewrite bind_run.
    unfold numeric_body at 1, numeric_col.
    destruct c as [c|].
    + rewrite bind_run, df_getitem_last.
      destruct (get_col c d) as [s|e]; [|exists d; reflexivity].
      rewrite df_setitem_last. cbn [mbind result_bind].
      destruct (set_col c (to_numeric s) d) as [d1|e]; [|exists d; reflexivity].
      apply IH.
    + apply IH.
Qed.

(** What a call leaves: the store it found, followed by the objects it
    made, and as outcome the one of [filter_table]. *)
Definition agrees (h : heap) (res : result ref * heap) (p : result DataFrame)
  : Prop :=
  exists extra, snd res = h ++ extra /\
    match p with
    | Ok out => exists r', fst res = Ok r' /\ (h ++ extra) !! r' = Some out
    | Raise e => fst res = Raise e
    end.

Lemma agrees_raise h e (objs : heap) :
  agrees h (Raise e, h ++ objs) (Raise e).
Proof. exists objs. split; reflexivity. Qed.

Lemma agrees_ok h r' out (objs : heap) :
  (h ++ objs) !! r' = Some out -> agrees h (Ok r', h ++ objs) (Ok out).
Proof. intros H. exists objs. split; [reflexivity|]. eauto. Qed.

Lemma parse_run (pre : heap) d ct :
  exists d'',
    ((if is_composite ct (columns d) then
       s ← df_getitem (length pre) (default ""%string ct);
       s' ← lift (series_apply (fun x => PInt <$> extract_half_year_times x) s);
       df_setitem (length pre) col_parsed s';;
       mret (Some col_parsed)
     else mret ct) : M (option string)) (pre ++ [d]) =
    match parse_times ct d with
    | Ok (d', ct') => (Ok ct', pre ++ [d'])
    | Raise e => (Raise e, pre ++ [d''])
    end.
Proof.
  exists d. unfold parse_times. destruct (is_composite ct (columns d)); [|reflexivity].
  rewrite bind_run, df_getitem_last.
  destruct (get_col _ d) as [s|e]; [|reflexivity].
  cbn [mbind result_bind]. rewrite bind_run. unfold lift at 1.
  destruct (series_apply _ s) as [s'|e]; [|reflexivity].
  cbn [mbind result_bind]. rewrite bind_run, df_setitem_last.
  destruct (set_col col_parsed s' d) as [d'|e]; reflexivity.
Qed.

Lemma normalize_run (pre : heap) d cm :
  exists d'',
    (match cm with
     | Some c =>
         s ← df_getitem (length pre) c;
         max_mktcap ← lift (series_max s);
         if negb (is_nan max_mktcap) && ltb f1000 max_mktcap then
           s ← df_getitem (length pre) c;
           s' ← lift (series_div s f1e8);
           df_setitem (length pre) c s'
         else mret tt
     | None => mret tt
     end : M unit) (pre ++ [d]) =
    match normalize_unit cm d with
    | Ok d' => (Ok tt, pre ++ [d'])
    | Raise e => (Raise e, pre ++ [d''])
    end.
Proof.
  exists d. unfold normalize_unit. destruct cm as [c|]; [|reflexivity].
  rewrite bind_run, df_getitem_last.
  destruct (get_col c d) as [s|e] eqn:Eg; [|reflexivity].
  cbn [mbind result_bind]. rewrite bind_run. unfold lift at 1.
  destruct (series_max s) as [mx|e]; [|reflexivity].
  cbn [mbind result_bind].
  destruct (negb (is_nan mx) && ltb f1000 mx); [|reflexivity].
  rewrite bind_run, df_getitem_last, Eg.
  cbn [mbind result_bind]. rewrite bind_run. unfold lift at 1.
  destruct (series_div s f1e8) as [s'|e]; [|reflexivity].
  cbn [mbind result_bind]. rewrite df_setitem_last.
  destruct (set_col c s' d) as [d'|e]; reflexivity.
Qed.

Theorem filter_stocks_run (h : heap) (r : ref) (d : DataFrame) :
  h !! r = Some d -> agrees h (filter_stocks r h) (filter_table d).
Proof.
  intros Hr. unfold filter_stocks, filter_table, filter_table_with.
  rewrite bind_run, (df_empty_at h r d Hr). cbv beta iota.
  destruct (empty d).
  { rewrite <- (app_nil_r h) at 2. apply agrees_ok. rewrite app_nil_r. exact Hr. }
  rewrite bind_run, (df_copy_at h r d Hr). cbv beta iota.
  rewrite bind_run, df_columns_last. cbv beta iota zeta.
  generalize (first_present price_cols (columns d)) as cp.
  generalize (first_present mktcap_cols (columns d)) as cm.
  generalize (first_present lianban_cols (columns d)) as cl.
  generalize (first_present times_cols (columns d)) as ct0.
  intros ct0 cl cm cp.
  rewrite bind_run.
  destruct (parse_run h d ct0) as [dx ->].
  destruct (parse_times ct0 d) as [[data ct]|e]; [|apply agrees_raise].
  cbn [mbind result_bind].
  destruct (nonempty (missing_of cp cm cl ct)).
  { rewrite bind_run, df_columns_last. cbv beta iota.
    destruct (forallb _ [col_code; col_name]).
    - rewrite df_select_last.
      destruct (select _ data) as [d'|e]; [|apply agrees_raise].
      rewrite <- app_assoc. apply agrees_ok.
      rewrite app_assoc. apply list_lookup_middle. reflexivity.
    - rewrite ret_run. apply agrees_ok. apply list_lookup_middle. reflexivity. }
  rewrite bind_run.
  change (for_each ?cs _) with (for_each cs (numeric_body (length h))).
  destruct (numeric_loop h [cp; cm; cl; ct] data) as [dx1 ->].
  destruct (numeric_cols _ data) as [data1|e]; [|apply agrees_raise].
  cbn [mbind result_bind].
  rewrite bind_run.
  destruct (normalize_run h data1 cm) as [dx2 ->].
  destruct (normalize_unit cm data1) as [data2|e]; [|apply agrees_raise].
  cbn [mbind result_bind]. unfold strategy_mask.
  do 5 (rewrite bind_run, cond_of_last;
        destruct (condition _ _ data2) as [?c|e]; [|apply agrees_raise];
        cbn [mbind result_bind]).
  unfold finish.
  rewrite bind_run, df_mask_last.
  destruct (mask_rows _ data2) as [f0|e]; [|apply agrees_raise].
  cbn [mbind result_bind].
  rewrite bind_run, df_copy_last. cbv beta iota.
  rewrite bind_run, df_select_last.
  destruct (select _ f0) as [f1|e];
    [|rewrite <- !app_assoc; apply agrees_raise].
  cbn [mbind result_bind].
  rewrite bind_run, df_rename_last. cbv beta iota.
  rewrite bind_run, df_sort_values_last.
  destruct (sort_values _ _) as [f2|e];
    [|rewrite <- !app_assoc; apply agrees_raise].
  cbn [mbind result_bind].
  rewrite bind_run, df_reset_index_last. cbv beta iota.
  rewrite ret_run. rewrite <- !app_assoc. apply agrees_ok.
  rewrite !app_assoc. apply list_lookup_middle. reflexivity.
Qed.

End Run.

(** ** Lists, columns and rows *)

Module PandasFacts.
Import Float64 Py Pandas Order.
Local Open Scope nat_scope.

Lemma zip_with_map_same {A B C : Type} (f : A -> B -> C) (g : A -> B) l :
  zip_with f l (map g l) = map (fun x => f x (g x)) l.
Proof. induction l as [|x l IH]; simpl; [reflexivity|]. rewrite IH. reflexivity. Qed.

Lemma and_map {A : Type} (f g : A -> bool) l :
  series_and (map f l) (map g l) = map (fun x => f x && g x) l.
Proof.
  unfold series_and. induction l as [|x l IH]; simpl; [reflexivity|].
  rewrite IH. reflexivity.
Qed.

Lemma keep_map {A : Type} (f : A -> bool) l : keep (map f l) l = List.filter f l.
Proof.
  induction l as [|x l IH]; simpl; [reflexivity|].
  rewrite IH. destruct (f x); reflexivity.
Qed.

Lemma filter_map_comm {A B : Type} (f : B -> bool) (g : A -> B) l :
  List.filter f (map g l) = map g (List.filter (fun x => f (g x)) l).
Proof.
  induction l as [|x l IH]; simpl; [reflexivity|].
  rewrite IH. destruct (f (g x)); reflexivity.
Qed.

Lemma filter_all {A : Type} (f : A -> bool) l :
  Forall (fun x => f x = true) l -> List.filter f l = l.
Proof.
  induction 1 as [|x l Hx _ IH]; simpl; [reflexivity|].
  rewrite Hx, IH. reflexivity.
Qed.

Lemma nth_insert {A : Type} (l : list A) i j x d :
  i < length l ->
  nth j (<[i:=x]> l) d = if i =? j then x else nth j l d.
Proof.
  revert i j. induction l as [|y l IH]; intros i j Hi; simpl in Hi; [lia|].
  destruct i as [|i], j as [|j]; simpl; try reflexivity.
  apply IH. lia.
Qed.

Lemma mapM_ok {A B : Type} (f : A -> result B) (g : A -> B) l :
  Forall (fun x => f x = Ok (g x)) l -> mapM f l = Ok (map g l).
Proof.
  induction 1 as [|x l Hx _ IH]; simpl; [reflexivity|].
  rewrite Hx. simpl. rewrite IH. reflexivity.
Qed.

(** *** [str.split] *)



(** *** Column positions *)

Lemma index_of_lookup c l p : index_of c l = Some p -> l !! p = Some c.
Proof.
  revert p. induction l as [|x l IH]; intros p; simpl; [discriminate|].
  destruct (String.eqb_spec c x) as [->|Hne].
  - intros [= <-]. reflexivity.
  - destruct (index_of c l) as [q|]; [|discriminate].
    intros [= <-]. simpl. apply IH. reflexivity.
Qed.

Lemma index_of_lt c l p : index_of c l = Some p -> p < length l.
Proof. intros H. apply index_of_lookup in H. eapply lookup_lt_Some, H. Qed.

Lemma index_of_inj c1 c2 l p :
  index_of c1 l = Some p -> index_of c2 l = Some p -> c1 = c2.
Proof.
  intros H1%index_of_lookup H2%index_of_lookup. congruence.
Qed.

Lemma index_of_mem c l : existsb (String.eqb c) l = true <-> is_Some (index_of c l).
Proof.
  induction l as [|x l IH]; simpl.
  - split; [discriminate|]. intros [? [=]].
  - destruct (String.eqb c x); simpl; [split; eauto|].
    rewrite IH. destruct (index_of c l); simpl; split; intros [? ?]; eauto; discriminate.
Qed.

Lemma index_of_none c l : existsb (String.eqb c) l = false <-> index_of c l = None.
Proof.
  destruct (existsb (String.eqb c) l) eqn:E.
  - apply index_of_mem in E as [p Hp]. rewrite Hp. split; discriminate.
  - split; [|reflexivity]. intros _.
    destruct (index_of c l) eqn:Ei; [|reflexivity].
    assert (is_Some (index_of c l)) as Hs by (rewrite Ei; eauto).
    apply index_of_mem in Hs. congruence.
Qed.

Lemma index_of_app_l c l l' p :
  index_of c l = Some p -> index_of c (l ++ l') = Some p.
Proof.
  revert p. induction l as [|x l IH]; intros p; simpl; [discriminate|].
  destruct (String.eqb c x); [trivial|].
  destruct (index_of c l) as [q|]; [|discriminate].
  intros [= <-]. rewrite (IH q eq_refl). reflexivity.
Qed.

Lemma index_of_app_new c l : index_of c l = None -> index_of c (l ++ [c]) = Some (length l).
Proof.
  induction l as [|x l IH]; simpl.
  - rewrite String.eqb_refl. reflexivity.
  - destruct (String.eqb c x); [discriminate|].
    destruct (index_of c l); [discriminate|]. intros _. rewrite IH; reflexivity.
Qed.

End PandasFacts.

(** ** The statements of [filter_stocks], one by one *)

Module Phases.
Import Float64 Py Pandas Order Strategy PandasFacts.
Local Open Scope nat_scope.

Lemma get_col_at c p d :
  index_of c (columns d) = Some p -> get_col c d = Ok (map (cell p) (rows d)).
Proof. unfold get_col, col_pos. intros ->. reflexivity. Qed.

Lemma get_col_none c d :
  index_of c (columns d) = None -> get_col c d = Raise KeyError.
Proof. unfold get_col, col_pos. intros ->. reflexivity. Qed.

Lemma set_col_at c p (g : row -> pyval) d :
  index_of c (columns d) = Some p ->
  set_col c (map g (rows d)) d =
  Ok (mkDF (columns d) (map (fun r => set_cell p r (g r)) (rows d))).
Proof.
  unfold set_col. intros ->. rewrite length_map, Nat.eqb_refl. simpl.
  rewrite zip_with_map_same. reflexivity.
Qed.

Lemma set_col_new c (g : row -> pyval) d :
  index_of c (columns d) = None ->
  set_col c (map g (rows d)) d =
  Ok (mkDF (columns d ++ [c]) (map (fun r => add_cell r (g r)) (rows d))).
Proof.
  unfold set_col. intros ->. rewrite length_map, Nat.eqb_refl. simpl.
  rewrite zip_with_map_same. reflexivity.
Qed.

(** *** Cells of updated rows *)

Lemma cell_set_cell p q r x :
  p < length (snd r) ->
  cell q (set_cell p r x) = if p =? q then x else cell q r.
Proof. intros Hp. unfold cell, set_cell. simpl. apply nth_insert, Hp. Qed.

Lemma length_set_cell p r x : length (snd (set_cell p r x)) = length (snd r).
Proof. unfold set_cell. simpl. apply length_insert. Qed.

Lemma cell_add_cell q r x :
  cell q (add_cell r x) =
  if q <? length (snd r) then cell q r
  else if q =? length (snd r) then x else PNone.
Proof.
  unfold cell, add_cell. simpl.
  destruct (Nat.ltb_spec q (length (snd r))).
  - apply app_nth1. assumption.
  - rewrite app_nth2 by assumption.
    destruct (Nat.eqb_spec q (length (snd r))) as [->|Hne].
    + rewrite Nat.sub_diag. reflexivity.
    + destruct (q - length (snd r)) as [|[|k]] eqn:E; simpl; try reflexivity. lia.
Qed.

Lemma length_add_cell r x : length (snd (add_cell r x)) = S (length (snd r)).
Proof. unfold add_cell. simpl. rewrite length_app. simpl. lia. Qed.

(** *** Numeric columns *)

Lemma numeric_col_at c p d :
  index_of c (columns d) = Some p ->
  numeric_col (Some c) d = Ok (mkDF (columns d) (map (numeric_at p) (rows d))).
Proof.
  intros Hp. unfold numeric_col. rewrite (get_col_at c p d Hp). simpl.
  unfold to_numeric. rewrite map_map.
  apply (set_col_at c p (fun r => PFloat (coerce (cell p r))) d Hp).
Qed.

Lemma as_floats_numeric (s : Series) :
  Forall (fun x => is_numeric x = true) s -> as_floats s = Ok (map coerce s).
Proof.
  intros H. apply mapM_ok. eapply Forall_impl; [exact H|].
  intros x Hx. unfold as_float. simpl in Hx. rewrite Hx. reflexivity.
Qed.

Lemma as_floats_col p (rs : list row) :
  Forall (fun r => is_numeric (cell p r) = true) rs ->
  as_floats (map (cell p) rs) = Ok (map (fun r => coerce (cell p r)) rs).
Proof.
  intros H. rewrite as_floats_numeric, map_map; [reflexivity|].
  apply Forall_map. exact H.
Qed.

(** *** The unit of the market cap *)

Lemma eta_df d : mkDF (columns d) (rows d) = d.
Proof. destruct d; reflexivity. Qed.

Lemma normalize_at c p d :
  index_of c (columns d) = Some p ->
  Forall (fun r => is_numeric (cell p r) = true) (rows d) ->
  normalize_unit (Some c) d =
  Ok (mkDF (columns d) (map (rescale_at p (should_scale p (rows d))) (rows d))).
Proof.
  intros Hp Hnum. unfold normalize_unit.
  rewrite (get_col_at c p d Hp). cbn [mbind result_bind].
  unfold series_max, series_div. rewrite (as_floats_col p _ Hnum).
  cbn [mbind result_bind]. fold (should_scale p (rows d)).
  destruct (should_scale p (rows d)).
  - rewrite map_map.
    apply (set_col_at c p (fun r => PFloat (div (coerce (cell p r)) f1e8)) d Hp).
  - unfold rescale_at. rewrite map_id. rewrite eta_df. reflexivity.
Qed.

(** *** The conditions *)

Lemma condition_at c p (f : float -> bool) test d :
  (forall s, test s = fs ← as_floats s; Ok (map f fs)) ->
  index_of c (columns d) = Some p ->
  Forall (fun r => is_numeric (cell p r) = true) (rows d) ->
  condition (Some c) test d = Ok (map (fun r => f (coerce (cell p r))) (rows d)).
Proof.
  intros Ht Hp Hnum. unfold condition.
  rewrite (get_col_at c p d Hp). cbn [mbind result_bind].
  rewrite Ht, (as_floats_col p _ Hnum). cbn [mbind result_bind].
  rewrite map_map. reflexivity.
Qed.

Lemma strategy_mask_at np nm nl nt pp pm pl pt d :
  index_of np (columns d) = Some pp ->
  index_of nm (columns d) = Some pm ->
  index_of nl (columns d) = Some pl ->
  index_of nt (columns d) = Some pt ->
  Forall (fun r => is_numeric (cell pp r) = true) (rows d) ->
  Forall (fun r => is_numeric (cell pm r) = true) (rows d) ->
  Forall (fun r => is_numeric (cell pl r) = true) (rows d) ->
  Forall (fun r => is_numeric (cell pt r) = true) (rows d) ->
  strategy_mask (Some np) (Some nm) (Some nl) (Some nt) d =
  Ok (map (conditions_at pp pm pl pt) (rows d)).
Proof.
  intros Hpp Hpm Hpl Hpt Np Nm Nl Nt. unfold strategy_mask.
  rewrite (condition_at np pp (fun x => ltb x f30) (fun s => series_lt s f30));
    [|reflexivity|assumption..].
  rewrite (condition_at nm pm (fun x => ltb x f200) (fun s => series_lt s f200));
    [|reflexivity|assumption..].
  rewrite (condition_at nt pt (fun x => leb f3 x) (fun s => series_ge s f3));
    [|reflexivity|assumption..].
  rewrite (condition_at nl pl (fun x => ltb x f4) (fun s => series_lt s f4));
    [|reflexivity|assumption..].
  rewrite (condition_at nl pl (fun x => eqb x f1) (fun s => series_eq s f1));
    [|reflexivity|assumption..].
  cbn [mbind result_bind]. rewrite !and_map. reflexivity.
Qed.

(** *** Selection, projection, labels, order *)

Lemma mask_rows_map (f : row -> bool) d :
  mask_rows (map f (rows d)) d = Ok (mkDF (columns d) (List.filter f (rows d))).
Proof.
  unfold mask_rows. rewrite length_map, Nat.eqb_refl. simpl.
  rewrite keep_map. reflexivity.
Qed.

Lemma rename_display np nm nl nt :
  In np price_cols -> In nm mktcap_cols -> In nl lianban_cols ->
  In nt times_names ->
  map (fun c => default c
         (lookup_item c (rename_map_of (Some np) (Some nm) (Some nl) (Some nt))))
      (keep_cols_of (Some np) (Some nm) (Some nl) (Some nt)) = display_cols.
Proof.
  unfold price_cols, mktcap_cols, lianban_cols, times_names. simpl In.
  intros Hp Hm Hl Ht.
  repeat match goal with H : _ \/ _ |- _ => destruct H end;
    try contradiction; subst; vm_compute; reflexivity.
Qed.

Lemma sort_keys_positions rs :
  mapM (fun ca : string * bool =>
          p ← col_pos (fst ca) (mkDF display_cols rs); Ok (p, snd ca)) sort_keys
  = Ok sort_positions.
Proof. reflexivity. Qed.

Lemma sort_values_display rs :
  Forall (fun r => is_numeric (cell 5 r) = true) rs ->
  Forall (fun r => is_numeric (cell 4 r) = true) rs ->
  Forall (fun r => is_numeric (cell 3 r) = true) rs ->
  sort_values sort_keys (mkDF display_cols rs) =
  Ok (mkDF display_cols (sort (cmp_rows sort_positions) rs)).
Proof.
  intros H5 H4 H3. unfold sort_values. rewrite sort_keys_positions.
  cbn [mbind result_bind]. unfold sort_positions. cbn [mapM fst rows].
  rewrite !as_floats_col by assumption. reflexivity.
Qed.

Lemma Forall_map_filter {A B : Type} (P : B -> Prop) (g : A -> B) f l :
  Forall (fun x => P (g x)) l -> Forall P (map g (List.filter f l)).
Proof.
  induction 1 as [|x l Hx _ IH]; simpl; [constructor|].
  destruct (f x); simpl; [constructor|]; assumption.
Qed.

Lemma finish_at np nm nl nt pp pm pl pt (f : row -> bool) d :
  In np price_cols -> In nm mktcap_cols -> In nl lianban_cols ->
  In nt times_names ->
  index_of np (columns d) = Some pp ->
  index_of nm (columns d) = Some pm ->
  index_of nl (columns d) = Some pl ->
  index_of nt (columns d) = Some pt ->
  Forall (fun r => is_numeric (cell pm r) = true) (rows d) ->
  Forall (fun r => is_numeric (cell pl r) = true) (rows d) ->
  Forall (fun r => is_numeric (cell pt r) = true) (rows d) ->
  finish (Some np) (Some nm) (Some nl) (Some nt) (map f (rows d)) d =
  match index_of col_code (columns d), index_of col_name (columns d) with
  | Some pc, Some pn =>
      Ok (reset_index
            (mkDF display_cols
               (sort (cmp_rows sort_positions)
                  (map (project [pc; pn; pp; pm; pl; pt])
                     (List.filter f (rows d))))))
  | _, _ => Raise KeyError
  end.
Proof.
  intros Ip Im Il It Hpp Hpm Hpl Hpt Nm Nl Nt. unfold finish.
  rewrite mask_rows_map. cbn [mbind result_bind].
  change (keep_cols_of (Some np) (Some nm) (Some nl) (Some nt))
    with [col_code; col_name; np; nm; nl; nt].
  unfold select, col_pos. cbn [mapM columns rows].
  destruct (index_of col_code (columns d)) as [pc|]; [|reflexivity].
  cbn [mbind result_bind].
  destruct (index_of col_name (columns d)) as [pn|]; [|reflexivity].
  rewrite Hpp, Hpm, Hpl, Hpt. cbn [mbind result_bind mret result_ret].
  unfold rename at 1. cbn [columns rows].
  pose proof (rename_display np nm nl nt Ip Im Il It) as Hren.
  change (keep_cols_of (Some np) (Some nm) (Some nl) (Some nt))
    with [col_code; col_name; np; nm; nl; nt] in Hren.
  rewrite Hren.
  rewrite sort_values_display; [reflexivity|..];
    apply Forall_map_filter; assumption.
Qed.

(** *** Lines 109-118 *)

Lemma numeric_at_numeric p q r :
  p < length (snd r) ->
  is_numeric (cell p r) = true \/ p = q ->
  is_numeric (cell p (numeric_at q r)) = true.
Proof.
  intros Hp H. unfold numeric_at.
  destruct (Nat.ltb_spec q (length (snd r))) as [Hq|Hq].
  - rewrite cell_set_cell by assumption.
    destruct (Nat.eqb_spec q p) as [->|Hne]; [reflexivity|].
    destruct H; [assumption|congruence].
  - unfold set_cell, cell. simpl. rewrite list_insert_ge by lia.
    destruct H as [H| ->]; [exact H|lia].
Qed.

Lemma length_numeric_at q r : length (snd (numeric_at q r)) = length (snd r).
Proof. apply length_set_cell. Qed.

Lemma length_numeric4 pp pm pl pt r :
  length (snd (numeric4 pp pm pl pt r)) = length (snd r).
Proof. unfold numeric4. rewrite !length_numeric_at. reflexivity. Qed.

Lemma numeric4_numeric pp pm pl pt p r :
  p < length (snd r) -> In p [pp; pm; pl; pt] ->
  is_numeric (cell p (numeric4 pp pm pl pt r)) = true.
Proof.
  intros Hp Hin. unfold numeric4. simpl in Hin.
  assert (forall q x, p < length (snd x) -> is_numeric (cell p x) = true ->
                      is_numeric (cell p (numeric_at q x)) = true) as Keep.
  { intros q x Hx Hn. apply numeric_at_numeric; auto. }
  assert (forall x, p < length (snd x) ->
                    is_numeric (cell p (numeric_at p x)) = true) as Make.
  { intros x Hx. apply numeric_at_numeric; auto. }
  destruct Hin as [<-|[<-|[<-|[<-|[]]]]].
  - do 3 (apply Keep; [rewrite ?length_numeric_at; exact Hp|]). apply Make, Hp.
  - do 2 (apply Keep; [rewrite ?length_numeric_at; exact Hp|]).
    apply Make. rewrite ?length_numeric_at. exact Hp.
  - apply Keep; [rewrite ?length_numeric_at; exact Hp|].
    apply Make. rewrite ?length_numeric_at. exact Hp.
  - apply Make. rewrite ?length_numeric_at. exact Hp.
Qed.

Lemma rescale_numeric p q flag r :
  is_numeric (cell p r) = true -> is_numeric (cell p (rescale_at q flag r)) = true.
Proof.
  intros H. unfold rescale_at. destruct flag; [|exact H].
  destruct (Nat.ltb_spec q (length (snd r))) as [Hq|Hq].
  - rewrite cell_set_cell by assumption.
    destruct (q =? p); [reflexivity|exact H].
  - unfold set_cell, cell. simpl. rewrite list_insert_ge by lia. exact H.
Qed.

Lemma length_rescale q flag r :
  length (snd (rescale_at q flag r)) = length (snd r).
Proof. unfold rescale_at. destruct flag; [apply length_set_cell|reflexivity]. Qed.

Lemma numeric_cols4 np nm nl nt pp pm pl pt d :
  index_of np (columns d) = Some pp ->
  index_of nm (columns d) = Some pm ->
  index_of nl (columns d) = Some pl ->
  index_of nt (columns d) = Some pt ->
  numeric_cols [Some np; Some nm; Some nl; Some nt] d =
  Ok (mkDF (columns d) (map (numeric4 pp pm pl pt) (rows d))).
Proof.
  intros Hpp Hpm Hpl Hpt. unfold numeric_cols.
  rewrite (numeric_col_at np pp d Hpp). cbn [mbind result_bind].
  rewrite (numeric_col_at nm pm (mkDF (columns d) _) Hpm).
  cbn [mbind result_bind columns rows].
  rewrite (numeric_col_at nl pl (mkDF (columns d) _) Hpl).
  cbn [mbind result_bind columns rows].
  rewrite (numeric_col_at nt pt (mkDF (columns d) _) Hpt).
  cbn [mbind result_bind columns rows].
  rewrite !map_map. reflexivity.
Qed.

Lemma normal_rows_numeric pp pm pl pt n p rs :
  rect n rs -> p < n -> In p [pp; pm; pl; pt] ->
  Forall (fun r => is_numeric (cell p r) = true) (normal_rows pp pm pl pt rs).
Proof.
  intros Hrect Hp Hin. unfold normal_rows. rewrite map_map.
  apply List.Forall_map. eapply Forall_impl; [exact Hrect|].
  intros r Hr. simpl in Hr. apply rescale_numeric, numeric4_numeric; [lia|exact Hin].
Qed.

Lemma normal_rows_rect pp pm pl pt n rs :
  rect n rs -> rect n (normal_rows pp pm pl pt rs).
Proof.
  intros Hrect. unfold normal_rows, rect. rewrite map_map.
  apply List.Forall_map. eapply Forall_impl; [exact Hrect|].
  intros r Hr. simpl in *. rewrite length_rescale, length_numeric4. exact Hr.
Qed.

(** Lines 109-118: the four columns made numeric, the market cap rescaled. *)
Lemma normal_form np nm nl nt pp pm pl pt d :
  rect (length (columns d)) (rows d) ->
  index_of np (columns d) = Some pp ->
  index_of nm (columns d) = Some pm ->
  index_of nl (columns d) = Some pl ->
  index_of nt (columns d) = Some pt ->
  (data ← numeric_cols [Some np; Some nm; Some nl; Some nt] d;
   normalize_unit (Some nm) data) =
  Ok (mkDF (columns d) (normal_rows pp pm pl pt (rows d))).
Proof.
  intros Hrect Hpp Hpm Hpl Hpt.
  rewrite (numeric_cols4 np nm nl nt pp pm pl pt d) by assumption.
  cbn [mbind result_bind].
  rewrite (normalize_at nm pm (mkDF (columns d) _)); [reflexivity|exact Hpm|].
  cbn [rows]. apply List.Forall_map. eapply Forall_impl; [exact Hrect|].
  intros r Hr. simpl in Hr. apply numeric4_numeric.
  - apply index_of_lt in Hpm. lia.
  - simpl. auto.
Qed.

(** *** Lines 60-92: the fields and the composite count *)

Lemma extract_total x : extract_half_year_times x = Ok (half_year x).
Proof.
  unfold half_year, extract_half_year_times.
  destruct (isna x); [reflexivity|].
  match goal with |- try_except ?m _ = _ => destruct m end; reflexivity.
Qed.

Lemma series_apply_extract (s : Series) :
  series_apply (fun x => PInt <$> extract_half_year_times x) s =
  Ok (map (fun x => PInt (half_year x)) s).
Proof.
  unfold series_apply. apply mapM_ok, Forall_forall. intros x _.
  rewrite extract_total. reflexivity.
Qed.

Lemma first_present_some cands cols c :
  first_present cands cols = Some c ->
  In c cands /\ exists p, index_of c cols = Some p.
Proof.
  unfold first_present. intros H. apply find_some in H as [Hin Hmem].
  split; [exact Hin|]. apply index_of_mem in Hmem as [p Hp]. eauto.
Qed.

Lemma index_of_app_none c c' l :
  c <> c' -> index_of c l = None -> index_of c (l ++ [c']) = None.
Proof.
  intros Hne. induction l as [|x l IH]; simpl.
  - destruct (String.eqb_spec c c'); [contradiction|reflexivity].
  - destruct (String.eqb c x); [discriminate|].
    destruct (index_of c l); [discriminate|]. intros _. rewrite IH; reflexivity.
Qed.

Lemma index_of_app_other c c' l :
  c <> c' -> index_of c (l ++ [c']) = index_of c l.
Proof.
  intros Hne. destruct (index_of c l) as [p|] eqn:E.
  - apply index_of_app_l, E.
  - apply index_of_app_none; assumption.
Qed.

(** The composite column is there: the parsed counts are stored under
    [col_parsed]. *)
Lemma parse_composite d ps :
  index_of "涨停统计" (columns d) = Some ps ->
  parse_times (Some "涨停统计"%string) d =
  Ok (mkDF (if index_of col_parsed (columns d) is Some _ then columns d
            else columns d ++ [col_parsed])
           (map (parse_row (columns d)) (rows d)),
      Some col_parsed).
Proof.
  intros Hps. unfold parse_times, is_composite, mem.
  assert (existsb (String.eqb "涨停统计") (columns d) = true) as ->.
  { apply index_of_mem. rewrite Hps. eauto. }
  rewrite String.eqb_refl. cbn [andb default from_option id].
  rewrite (get_col_at _ ps d Hps). cbn [mbind result_bind].
  rewrite series_apply_extract. cbn [mbind result_bind]. rewrite map_map.
  unfold parse_row. rewrite Hps.
  destruct (index_of col_parsed (columns d)) as [q|] eqn:Eq.
  - rewrite (set_col_at col_parsed q _ d Eq). reflexivity.
  - rewrite (set_col_new col_parsed _ d Eq). reflexivity.
Qed.

Lemma parse_plain ct d :
  ct <> Some "涨停统计"%string -> parse_times ct d = Ok (d, ct).
Proof.
  intros Hne. unfold parse_times, is_composite.
  destruct ct as [c|]; [|reflexivity].
  destruct (String.eqb_spec c "涨停统计") as [->|]; [congruence|reflexivity].
Qed.

Lemma is_composite_true ct cols :
  is_composite ct cols = true ->
  ct = Some "涨停统计"%string /\ exists ps, index_of "涨停统计" cols = Some ps.
Proof.
  unfold is_composite, mem. destruct ct as [c|]; [|discriminate].
  intros H. apply andb_true_iff in H as [Hc Hm].
  apply String.eqb_eq in Hc. subst c. split; [reflexivity|].
  apply index_of_mem in Hm as [p Hp]. eauto.
Qed.

Lemma parse_times_parsed d :
  parse_times (first_present times_cols (columns d)) d =
  Ok (parsed d, parsed_times d).
Proof.
  unfold parsed, parsed_times.
  destruct (is_composite _ (columns d)) eqn:E.
  - apply is_composite_true in E as [-> [ps Hps]]. apply (parse_composite d ps Hps).
  - unfold parse_times. rewrite E. reflexivity.
Qed.

(** The other columns keep their place and their cells. *)
Lemma parsed_index c d :
  c <> col_parsed -> index_of c (columns (parsed d)) = index_of c (columns d).
Proof.
  intros Hne. unfold parsed. destruct (is_composite _ _); [|reflexivity].
  cbn [columns]. destruct (index_of col_parsed (columns d)); [reflexivity|].
  apply index_of_app_other, Hne.
Qed.

Lemma parse_row_cell cols c p r :
  c <> col_parsed -> index_of c cols = Some p -> length (snd r) = length cols ->
  cell p (parse_row cols r) = cell p r.
Proof.
  intros Hne Hp Hlen. unfold parse_row.
  destruct (index_of "涨停统计" cols) as [ps|]; [|reflexivity].
  pose proof (index_of_lt _ _ _ Hp) as Hlt.
  destruct (index_of col_parsed cols) as [q|] eqn:Eq.
  - pose proof (index_of_lt _ _ _ Eq).
    rewrite cell_set_cell by lia.
    destruct (Nat.eqb_spec q p) as [->|]; [|reflexivity].
    exfalso. apply Hne. eapply index_of_inj; eassumption.
  - rewrite cell_add_cell.
    destruct (Nat.ltb_spec p (length (snd r))); [reflexivity|lia].
Qed.

Lemma parsed_cells c p d :
  rect (length (columns d)) (rows d) ->
  c <> col_parsed -> index_of c (columns d) = Some p ->
  map (cell p) (rows (parsed d)) = map (cell p) (rows d).
Proof.
  intros Hrect Hne Hp. unfold parsed. destruct (is_composite _ _); [|reflexivity].
  cbn [rows]. rewrite map_map. apply map_ext_Forall.
  eapply Forall_impl; [exact Hrect|]. intros r Hr.
  apply (parse_row_cell _ c); assumption.
Qed.

Lemma parsed_len d : length (rows (parsed d)) = length (rows d).
Proof.
  unfold parsed. destruct (is_composite _ _); [|reflexivity]. apply length_map.
Qed.

Lemma parse_row_rect cols ps n rs :
  index_of "涨停统计" cols = Some ps ->
  rect n rs ->
  rect (if index_of col_parsed cols is Some _ then n else S n)
       (map (parse_row cols) rs).
Proof.
  intros Hps Hrect. unfold rect, parse_row. rewrite Hps.
  apply List.Forall_map. eapply Forall_impl; [exact Hrect|].
  intros r Hr. simpl in Hr.
  destruct (index_of col_parsed cols).
  - rewrite length_set_cell. exact Hr.
  - rewrite length_add_cell. congruence.
Qed.

Lemma located_exists d :
  rect (length (columns d)) (rows d) -> resolved d ->
  exists d0 np nm nl nt pp pm pl pt, Located d d0 np nm nl nt pp pm pl pt.
Proof.
  intros Hrect ([np Hp] & [nm Hm] & [nl Hl] & [nt0 Ht]).
  destruct (first_present_some _ _ _ Hp) as [Ip [pp Hpp]].
  destruct (first_present_some _ _ _ Hm) as [Im [pm Hpm]].
  destruct (first_present_some _ _ _ Hl) as [Il [pl Hpl]].
  destruct (first_present_some _ _ _ Ht) as [It [pt0 Hpt]].
  destruct (String.eqb_spec nt0 "涨停统计") as [->|Hne].
  - pose proof (parse_composite d pt0 Hpt) as Hparse.
    pose proof (parse_row_rect _ _ _ _ Hpt Hrect) as Hrect'.
    destruct (index_of col_parsed (columns d)) as [q|] eqn:Eq.
    + exists (mkDF (columns d) (map (parse_row (columns d)) (rows d))),
        np, nm, nl, col_parsed, pp, pm, pl, q.
      split; try assumption; try reflexivity.
      * rewrite Ht. exact Hparse.
      * simpl. auto.
      * simpl. apply length_map.
    + exists (mkDF (columns d ++ [col_parsed]) (map (parse_row (columns d)) (rows d))),
        np, nm, nl, col_parsed, pp, pm, pl, (length (columns d)).
      split; try assumption; cbn [columns rows].
      * rewrite Ht. exact Hparse.
      * simpl. auto.
      * apply index_of_app_l, Hpp.
      * apply index_of_app_l, Hpm.
      * apply index_of_app_l, Hpl.
      * apply index_of_app_new, Eq.
      * rewrite length_app. simpl. rewrite Nat.add_1_r. exact Hrect'.
      * apply index_of_app_other. discriminate.
      * apply index_of_app_other. discriminate.
      * apply length_map.
  - exists d, np, nm, nl, nt0, pp, pm, pl, pt0.
    split; try assumption; try reflexivity.
    + rewrite Ht. apply parse_plain. congruence.
    + unfold times_cols in It. unfold times_names. simpl in *.
      destruct It as [E|[E|[E|[]]]]; subst; auto; congruence.
Qed.

Lemma normalize_numeric4 nm pp pm pl pt cols rs :
  rect (length cols) rs ->
  index_of nm cols = Some pm ->
  normalize_unit (Some nm) (mkDF cols (map (numeric4 pp pm pl pt) rs)) =
  Ok (mkDF cols (normal_rows pp pm pl pt rs)).
Proof.
  intros Hrect Hpm.
  rewrite (normalize_at nm pm (mkDF cols _)); [reflexivity|exact Hpm|].
  cbn [rows]. apply List.Forall_map. eapply Forall_impl; [exact Hrect|].
  intros r Hr. simpl in Hr. apply numeric4_numeric.
  - apply index_of_lt in Hpm. lia.
  - simpl. auto.
Qed.

Lemma conditions_project pc pn pp pm pl pt rs :
  map (project [pc; pn; pp; pm; pl; pt])
    (List.filter (conditions_at pp pm pl pt) rs) =
  List.filter five_conditions (map (project [pc; pn; pp; pm; pl; pt]) rs).
Proof. rewrite filter_map_comm. reflexivity. Qed.

Section Forms.
Variables (d d0 : DataFrame) (np nm nl nt : string) (pp pm pl pt : nat).
Hypothesis Hloc : Located d d0 np nm nl nt pp pm pl pt.

(** The table at line 120, in the columns of the result. *)
Lemma prepared_located :
  prepared d =
  match index_of col_code (columns d), index_of col_name (columns d) with
  | Some pc, Some pn =>
      Ok (mkDF display_cols
            (map (project [pc; pn; pp; pm; pl; pt])
               (normal_rows pp pm pl pt (rows d0))))
  | _, _ => Raise KeyError
  end.
Proof.
  destruct Hloc. unfold prepared.
  rewrite loc_price0, loc_mktcap0, loc_lianban0, loc_parse0.
  cbn [mbind result_bind].
  rewrite (numeric_cols4 np nm nl nt pp pm pl pt d0) by assumption.
  cbn [mbind result_bind].
  rewrite (normalize_numeric4 nm pp pm pl pt) by assumption.
  cbn [mbind result_bind].
  change (keep_cols_of (Some np) (Some nm) (Some nl) (Some nt))
    with [col_code; col_name; np; nm; nl; nt].
  unfold select, col_pos. cbn [mapM columns rows].
  rewrite loc_code0, loc_name0.
  destruct (index_of col_code (columns d)) as [pc|]; [|reflexivity].
  cbn [mbind result_bind].
  destruct (index_of col_name (columns d)) as [pn|]; [|reflexivity].
  rewrite pos_price0, pos_mktcap0, pos_lianban0, pos_times0.
  cbn [mbind result_bind mret result_ret].
  unfold rename. cbn [columns rows].
  pose proof (rename_display np nm nl nt in_price0 in_mktcap0 in_lianban0 in_times0)
    as Hren.
  change (keep_cols_of (Some np) (Some nm) (Some nl) (Some nt))
    with [col_code; col_name; np; nm; nl; nt] in Hren.
  rewrite Hren. reflexivity.
Qed.

(** The table returned on the path of lines 109-166. *)
Lemma filter_table_located :
  empty d = false ->
  filter_table d =
  match index_of col_code (columns d), index_of col_name (columns d) with
  | Some pc, Some pn =>
      Ok (reset_index
            (mkDF display_cols
               (sort (cmp_rows sort_positions)
                  (List.filter five_conditions
                     (map (project [pc; pn; pp; pm; pl; pt])
                        (normal_rows pp pm pl pt (rows d0)))))))
  | _, _ => Raise KeyError
  end.
Proof.
  intros Hne. destruct Hloc. unfold filter_table, filter_table_with. rewrite Hne.
  cbv zeta. rewrite loc_price0, loc_mktcap0, loc_lianban0, loc_parse0.
  cbn [mbind result_bind missing_of app nonempty].
  rewrite (numeric_cols4 np nm nl nt pp pm pl pt d0) by assumption.
  cbn [mbind result_bind].
  rewrite (normalize_numeric4 nm pp pm pl pt) by assumption.
  cbn [mbind result_bind].
  assert (forall p, In p [pp; pm; pl; pt] -> p < length (columns d0) ->
     Forall (fun r => is_numeric (cell p r) = true)
       (normal_rows pp pm pl pt (rows d0))) as Hnum.
  { intros p Hin Hlt. eapply normal_rows_numeric; eassumption. }
  pose proof (index_of_lt _ _ _ pos_price0).
  pose proof (index_of_lt _ _ _ pos_mktcap0).
  pose proof (index_of_lt _ _ _ pos_lianban0).
  pose proof (index_of_lt _ _ _ pos_times0).
  rewrite (strategy_mask_at np nm nl nt pp pm pl pt (mkDF (columns d0) _));
    try assumption; try (apply Hnum; simpl; auto).
  cbn [mbind result_bind].
  change (map (conditions_at pp pm pl pt) (normal_rows pp pm pl pt (rows d0)))
    with (map (conditions_at pp pm pl pt)
            (rows (mkDF (columns d0) (normal_rows pp pm pl pt (rows d0))))).
  rewrite (finish_at np nm nl nt pp pm pl pt);
    try assumption; try (apply Hnum; simpl; auto).
  cbn [columns rows]. rewrite loc_code0, loc_name0.
  destruct (index_of col_code (columns d)) as [pc|]; [|reflexivity].
  destruct (index_of col_name (columns d)) as [pn|]; [|reflexivity].
  rewrite conditions_project. reflexivity.
Qed.

End Forms.

(** *** Lines 94-107: a field without column *)

Lemma parsed_times_some d :
  is_Some (parsed_times d) <-> is_Some (first_present times_cols (columns d)).
Proof.
  unfold parsed_times. destruct (is_composite _ _) eqn:E; [|reflexivity].
  apply is_composite_true in E as [-> _]. split; eauto.
Qed.

Lemma missing_resolved d :
  nonempty (missing_of (first_present price_cols (columns d))
              (first_present mktcap_cols (columns d))
              (first_present lianban_cols (columns d)) (parsed_times d)) = false
  <-> resolved d.
Proof.
  unfold resolved. rewrite <- parsed_times_some.
  destruct (first_present price_cols _), (first_present mktcap_cols _),
    (first_present lianban_cols _), (parsed_times d); simpl;
    split; intros H; try discriminate; try reflexivity;
    repeat split; eauto;
    destruct H as (H1 & H2 & H3 & H4);
    try (destruct H1 as [? [=]]); try (destruct H2 as [? [=]]);
    try (destruct H3 as [? [=]]); try (destruct H4 as [? [=]]).
Qed.

(** The table returned when a field has no column. *)
Lemma filter_table_missing d :
  empty d = false -> ~ resolved d ->
  filter_table d =
  if forallb (fun c => mem c (columns (parsed d))) [col_code; col_name]
  then select [col_code; col_name] (parsed d)
  else Ok (parsed d).
Proof.
  intros Hne Hres. unfold filter_table, filter_table_with. rewrite Hne. cbv zeta.
  rewrite parse_times_parsed. cbn [mbind result_bind].
  destruct (nonempty _) eqn:E; [reflexivity|].
  exfalso. apply Hres, missing_resolved, E.
Qed.

Lemma parse_row_fst cols r : fst (parse_row cols r) = fst r.
Proof.
  unfold parse_row. destruct (index_of _ cols); [|reflexivity].
  destruct (index_of col_parsed cols); reflexivity.
Qed.

Lemma select_code_name d pc pn :
  rect (length (columns d)) (rows d) ->
  index_of col_code (columns d) = Some pc ->
  index_of col_name (columns d) = Some pn ->
  select [col_code; col_name] (parsed d) =
  Ok (mkDF [col_code; col_name] (map (project [pc; pn]) (rows d))).
Proof.
  intros Hrect Hc Hn. unfold select, col_pos. cbn [mapM].
  rewrite !parsed_index by discriminate. rewrite Hc, Hn.
  cbn [mbind result_bind mret result_ret]. do 2 f_equal.
  unfold parsed. destruct (is_composite _ _); [|reflexivity].
  cbn [rows]. rewrite map_map. apply map_ext_Forall.
  eapply Forall_impl; [exact Hrect|]. intros r Hr. simpl in Hr.
  unfold project. rewrite parse_row_fst. cbn [map].
  rewrite (parse_row_cell _ col_code pc r), (parse_row_cell _ col_name pn r);
    try assumption; try discriminate. reflexivity.
Qed.

End Phases.

(** ** The variant without the streak condition *)

Module Variant.
Import Float64 Py Pandas Strategy FloatOrder.
Local Open Scope nat_scope.

(** A condition that another one implies adds nothing to a conjunction. *)
Lemma and_absorb {A : Type} (f g : A -> bool) (xs : list bool) (l : list A) :
  (forall y, g y = true -> f y = true) ->
  series_and (series_and xs (map f l)) (map g l) = series_and xs (map g l).
Proof.
  intros Himp. unfold series_and. revert xs.
  induction l as [|y l IH]; intros [|x xs]; simpl; try reflexivity.
  rewrite IH. f_equal.
  destruct (g y) eqn:Eg; [rewrite (Himp y Eg)|]; destruct x; simpl;
    rewrite ?andb_false_r; reflexivity.
Qed.

Lemma repeat_map (n : nat) : repeat true n = map (fun _ : unit => true) (repeat tt n).
Proof. induction n as [|n IH]; simpl; [reflexivity|]. rewrite IH. reflexivity. Qed.

Lemma strategy_mask_variant cp cm cl ct d :
  strategy_mask cp cm cl ct d = strategy_mask_first_board_only cp cm cl ct d.
Proof.
  unfold strategy_mask, strategy_mask_first_board_only.
  destruct (condition cp _ d) as [c1|e]; [|reflexivity].
  cbn [mbind result_bind].
  destruct (condition cm _ d) as [c2|e]; [|reflexivity].
  cbn [mbind result_bind].
  destruct (condition ct _ d) as [c3|e]; [|reflexivity].
  cbn [mbind result_bind].
  unfold condition. destruct cl as [c|].
  - destruct (get_col c d) as [s|e]; [|reflexivity].
    cbn [mbind result_bind]. unfold series_lt, series_eq.
    destruct (as_floats s) as [fs|e]; [|reflexivity].
    cbn [mbind result_bind]. f_equal.
    apply and_absorb. intros y. apply eqb_1_ltb_4.
  - cbn [mbind result_bind]. f_equal. rewrite repeat_map.
    apply and_absorb. reflexivity.
Qed.

Lemma filter_table_variant d :
  filter_table d = filter_table_first_board_only d.
Proof.
  unfold filter_table, filter_table_first_board_only, filter_table_with.
  destruct (empty d); [reflexivity|]. cbv zeta.
  destruct (parse_times _ d) as [[data ct]|e]; [|reflexivity].
  cbn [mbind result_bind].
  destruct (nonempty _); [reflexivity|].
  destruct (numeric_cols _ data) as [data1|e]; [|reflexivity].
  cbn [mbind result_bind].
  destruct (normalize_unit _ data1) as [data2|e]; [|reflexivity].
  cbn [mbind result_bind].
  rewrite strategy_mask_variant. reflexivity.
Qed.

End Variant.

(** ** The table returned on the full path *)

Module ResultFacts.
Import Float64 Float64Facts Py Pandas Order OrderFacts KeyFacts FloatOrder.
Import Strategy PandasFacts Phases.
Local Open Scope nat_scope.

Lemma wf_rect d : wf d -> rect (length (columns d)) (rows d).
Proof. intros [_ H]. exact H. Qed.

(** Selecting the rows and projecting commute: the table returned is made
    from the prepared one. *)
Lemma filter_table_prepared d :
  rect (length (columns d)) (rows d) -> empty d = false -> resolved d ->
  filter_table d =
  p ← prepared d;
  Ok (reset_index
        (mkDF (columns p)
           (sort (cmp_rows sort_positions)
              (List.filter five_conditions (rows p))))).
Proof.
  intros Hrect Hne Hres.
  destruct (located_exists d Hrect Hres)
    as (d0 & np & nm & nl & nt & pp & pm & pl & pt & Hloc).
  rewrite (filter_table_located _ _ _ _ _ _ _ _ _ _ Hloc Hne).
  rewrite (prepared_located _ _ _ _ _ _ _ _ _ _ Hloc).
  destruct (index_of col_code (columns d)); [|reflexivity].
  destruct (index_of col_name (columns d)); reflexivity.
Qed.

(** The prepared table: when it exists, and its shape. *)
Lemma prepared_ok d :
  rect (length (columns d)) (rows d) -> resolved d ->
  mem col_code (columns d) = true -> mem col_name (columns d) = true ->
  exists p, prepared d = Ok p /\ columns p = display_cols /\
            length (rows p) = length (rows d) /\
            Forall (fun r => length (snd r) = 6) (rows p).
Proof.
  intros Hrect Hres Hc Hn.
  destruct (located_exists d Hrect Hres)
    as (d0 & np & nm & nl & nt & pp & pm & pl & pt & Hloc).
  rewrite (prepared_located _ _ _ _ _ _ _ _ _ _ Hloc).
  apply index_of_mem in Hc as [pc ->]. apply index_of_mem in Hn as [pn ->].
  eexists. split; [reflexivity|]. cbn [columns rows].
  split; [reflexivity|]. split.
  - unfold normal_rows. rewrite !length_map. apply (loc_len _ _ _ _ _ _ _ _ _ _ Hloc).
  - apply List.Forall_map, Forall_forall. intros; reflexivity.
Qed.

Lemma prepared_raises d :
  rect (length (columns d)) (rows d) -> resolved d ->
  mem col_code (columns d) && mem col_name (columns d) = false ->
  prepared d = Raise KeyError.
Proof.
  intros Hrect Hres Hcn.
  destruct (located_exists d Hrect Hres)
    as (d0 & np & nm & nl & nt & pp & pm & pl & pt & Hloc).
  rewrite (prepared_located _ _ _ _ _ _ _ _ _ _ Hloc).
  apply andb_false_iff in Hcn as [H|H]; apply index_of_none in H; rewrite H;
    [reflexivity|]. destruct (index_of col_code _); reflexivity.
Qed.

(** *** Renumbering *)

Lemma relabel_snd (f : nat -> pyval) (l : list row) :
  map snd (imap (fun i (r : row) => (f i, snd r)) l) = map snd l.
Proof.
  revert f. induction l as [|x l IH]; intros f; simpl; [reflexivity|].
  f_equal. apply (IH (fun i => f (S i))).
Qed.

Lemma relabel_fst (f : nat -> pyval) (l : list row) :
  map fst (imap (fun i (r : row) => (f i, snd r)) l) = map f (seq 0 (length l)).
Proof.
  revert f. induction l as [|x l IH]; intros f; simpl; [reflexivity|].
  f_equal. rewrite <- seq_shift, map_map. apply (IH (fun i => f (S i))).
Qed.

Lemma reset_index_cells d : map snd (rows (reset_index d)) = map snd (rows d).
Proof. apply relabel_snd. Qed.

Lemma reset_index_labels d :
  map fst (rows (reset_index d)) =
  map (fun i => PInt (Z.of_nat i)) (seq 0 (length (rows d))).
Proof. apply relabel_fst. Qed.

(** A property of the cells holds of the rows of two lists with the same
    cells alike. *)
Lemma Forall_cells (P : list pyval -> Prop) (l1 l2 : list row) :
  map snd l1 = map snd l2 ->
  Forall (fun r => P (snd r)) l2 -> Forall (fun r => P (snd r)) l1.
Proof.
  intros E H. apply List.Forall_map. rewrite E. apply List.Forall_map in H. exact H.
Qed.

(** What depends on the cells only is kept by renumbering. *)
#[local] Abbreviation relabel f := (imap (fun i (r : row) => (f i, snd r))).

Lemma relabel_Forall (f : nat -> pyval) (P : row -> Prop) (l : list row) :
  (forall a b c, P (a, c) -> P (b, c)) ->
  Forall P l -> Forall P (relabel f l).
Proof.
  intros HP H. revert f. induction H as [|x l Hx _ IH]; intros f; simpl.
  - constructor.
  - constructor; [|apply (IH (fun i => f (S i)))].
    destruct x as [a c]. simpl. eapply HP, Hx.
Qed.

Lemma relabel_filter (f : nat -> pyval) (q : row -> bool) (l : list row) :
  (forall a b c, q (a, c) = q (b, c)) ->
  map snd (List.filter q (relabel f l)) = map snd (List.filter q l).
Proof.
  intros Hq. revert f. induction l as [|x l IH]; intros f; simpl; [reflexivity|].
  destruct x as [a c]. simpl. rewrite (Hq (f 0) a c).
  destruct (q (a, c)); simpl; [f_equal|]; apply (IH (fun i => f (S i))).
Qed.

Lemma relabel_sorted (f : nat -> pyval) (R : row -> row -> Prop) (l : list row) :
  (forall a b c a' b' c', R (a, c) (a', c') -> R (b, c) (b', c')) ->
  StronglySorted R l -> StronglySorted R (relabel f l).
Proof.
  intros HR H. revert f. induction H as [|x l Hs IH Hx]; intros f; simpl.
  - constructor.
  - constructor; [apply (IH (fun i => f (S i)))|].
    destruct x as [a c]. simpl.
    apply (relabel_Forall _ (fun y => R (f 0, c) y)).
    + intros a' b' c' H'. eapply HR, H'.
    + eapply Forall_impl; [exact Hx|]. intros [a' c'] H'. eapply HR, H'.
Qed.

(** *** The order of the rows *)

Lemma cmp_key_desc a b :
  is_nan a = false -> is_nan b = false ->
  compare b a = Some (cmp_key false a b).
Proof.
  intros Ha Hb. unfold cmp_key. rewrite Ha, Hb.
  destruct (compare_some b a Hb Ha) as [c ->]. reflexivity.
Qed.

Lemma cmp_key_asc a b :
  is_nan a = false -> is_nan b = false ->
  compare a b = Some (cmp_key true a b).
Proof.
  intros Ha Hb. unfold cmp_key. rewrite Ha, Hb.
  destruct (compare_some a b Ha Hb) as [c ->]. reflexivity.
Qed.

(** A row that passes the conditions has numbers for keys. *)
Lemma five_conditions_keys r :
  five_conditions r = true ->
  is_nan (half_year_limit_count r) = false /\
  is_nan (consecutive_limit_days r) = false /\
  is_nan (market_cap r) = false.
Proof.
  unfold five_conditions. rewrite !andb_true_iff.
  intros ((((_ & Hm) & Ht) & Hl) & _).
  apply ltb_compare, compare_not_nan in Hm as [Hm _].
  apply leb_compare in Ht.
  assert (is_nan (half_year_limit_count r) = false) as Ht'.
  { destruct Ht as [Ht|Ht]; apply compare_not_nan in Ht as [_ Ht]; exact Ht. }
  apply ltb_compare, compare_not_nan in Hl as [Hl _].
  auto.
Qed.

Lemma leb_rows_key_before x y :
  five_conditions x = true -> five_conditions y = true ->
  leb_of (cmp_rows sort_positions) x y = true -> key_before x y.
Proof.
  intros Hx Hy.
  destruct (five_conditions_keys x Hx) as (Xt & Xl & Xm).
  destruct (five_conditions_keys y Hy) as (Yt & Yl & Ym).
  unfold leb_of, sort_positions, cmp_rows, lex, on, key_before.
  fold (half_year_limit_count x) (half_year_limit_count y).
  fold (consecutive_limit_days x) (consecutive_limit_days y).
  fold (market_cap x) (market_cap y).
  pose proof (cmp_key_desc _ _ Xt Yt) as Ht.
  pose proof (cmp_key_desc _ _ Xl Yl) as Hl.
  pose proof (cmp_key_asc _ _ Xm Ym) as Hm.
  destruct (cmp_key false (half_year_limit_count x) (half_year_limit_count y)).
  - right. split; [apply eqb_sym, eqb_compare, Ht|].
    destruct (cmp_key false (consecutive_limit_days x) (consecutive_limit_days y)).
    + right. split; [apply eqb_sym, eqb_compare, Hl|].
      apply leb_compare.
      destruct (cmp_key true (market_cap x) (market_cap y)); auto; discriminate.
    + left. apply ltb_compare, Hl.
    + discriminate.
  - left. apply ltb_compare, Ht.
  - discriminate.
Qed.

Lemma same_keys_eqb k x :
  five_conditions x = true ->
  is_nan (half_year_limit_count k) = false ->
  is_nan (consecutive_limit_days k) = false ->
  is_nan (market_cap k) = false ->
  same_keys k x = eqb_of (cmp_rows sort_positions) k x.
Proof.
  intros Hx Kt Kl Km.
  destruct (five_conditions_keys x Hx) as (Xt & Xl & Xm).
  unfold same_keys, eqb_of, sort_positions, cmp_rows, lex, on, trivial_cmp.
  fold (half_year_limit_count x) (half_year_limit_count k).
  fold (consecutive_limit_days x) (consecutive_limit_days k).
  fold (market_cap x) (market_cap k).
  pose proof (cmp_key_desc _ _ Kt Xt) as Ht.
  pose proof (cmp_key_desc _ _ Kl Xl) as Hl.
  pose proof (cmp_key_asc _ _ Km Xm) as Hm.
  assert (forall a b c, compare b a = Some c ->
            eqb a b = match c with Eq => true | _ => false end) as Hsym.
  { intros a b c H. apply compare_antisym in H. unfold eqb, SFeqb.
    fold (compare a b). rewrite H. destruct c; reflexivity. }
  rewrite (Hsym _ _ _ Ht), (Hsym _ _ _ Hl).
  unfold eqb at 1, SFeqb. fold (compare (market_cap k) (market_cap x)). rewrite Hm.
  destruct (cmp_key false (half_year_limit_count k) (half_year_limit_count x));
    try reflexivity.
  destruct (cmp_key false (consecutive_limit_days k) (consecutive_limit_days x));
    try reflexivity.
  destruct (cmp_key true (market_cap k) (market_cap x)); reflexivity.
Qed.

Lemma same_keys_nan k x :
  is_nan (half_year_limit_count k) || is_nan (consecutive_limit_days k)
    || is_nan (market_cap k) = true ->
  same_keys k x = false.
Proof.
  intros H. unfold same_keys.
  assert (forall a b, is_nan a = true -> eqb a b = false) as Hn.
  { intros a b Ha. unfold eqb, SFeqb. fold (compare a b).
    rewrite (compare_nan_l a b Ha). reflexivity. }
  apply orb_true_iff in H as [H|H]; [apply orb_true_iff in H as [H|H]|].
  - rewrite (Hn _ _ H). reflexivity.
  - rewrite (Hn _ (consecutive_limit_days x) H). apply andb_false_iff. left.
    apply andb_false_r.
  - rewrite (Hn _ (market_cap x) H). apply andb_false_r.
Qed.

End ResultFacts.

(** ** What [int] and [float] read *)

Module ReaderFacts.
Import Float64 Py Strategy PandasFacts.
Import Decimal DecimalString.
Local Open Scope Z_scope.

#[local] Abbreviation chars := list_ascii_of_string.


(** *** ASCII strs are read byte by byte *)



(** *** Numerals *)





(** *** Blanks around a literal *)








(** *** Integer literals *)








(** *** Integers that a float holds exactly *)









(** *** Float literals that are numerals *)




(** *** Literals as strs *)








(** *** Splitting at the slash *)






(** *** The parser on literals *)













(** *** What is no integer literal *)










End ReaderFacts.

(** * The claims *)

Import Float64 Float64Facts Py Pandas Order OrderFacts KeyFacts FloatOrder.
Import Store Strategy Run PandasFacts Phases.

Local Open Scope nat_scope.
Local Open Scope string_scope.

(** The table a call returns is the one of [filter_table]. *)
Lemma call_table (h : heap) (r : ref) (d : DataFrame) :
  h !! r = Some d -> call h r = filter_table d.
Proof.
  intros Hr. destruct (filter_stocks_run h r d Hr) as (extra & Hh & Hres).
  unfold call. destruct (filter_stocks r h) as [res h']. simpl in *. subst h'.
  destruct (filter_table d) as [out|e].
  - destruct Hres as (r' & -> & ->). reflexivity.
  - rewrite Hres. reflexivity.
Qed.

(** A call leaves every object of the store as it found it. *)
Lemma filter_stocks_frame (h : heap) (r r0 : ref) (d d0 : DataFrame) :
  h !! r = Some d -> h !! r0 = Some d0 -> snd (filter_stocks r h) !! r0 = Some d0.
Proof.
  intros Hr Hr0. destruct (filter_stocks_run h r d Hr) as (extra & -> & _).
  rewrite lookup_app_l; [exact Hr0|]. eapply lookup_lt_Some, Hr0.
Qed.

(** C9. [filter_stocks] never mutates its argument: whatever the table
    behind [df] is, and whether the call returns or raises, the object
    behind [df] holds the same table after the call as before; the updates
    of the call go to the copy and to the objects derived from it. *)
Theorem C9_argument_not_mutated (h : heap) (df : ref) (d : DataFrame) :
  h !! df = Some d -> snd (filter_stocks df h) !! df = Some d.
Proof. intros H. exact (filter_stocks_frame h df df d d H H). Qed.


Lemma C9_argument_not_mutated_witness :
  snd (filter_stocks 0 [Samples.snapshot]) !! 0 = Some Samples.snapshot.
Proof. apply (C9_argument_not_mutated [Samples.snapshot] 0 Samples.snapshot). reflexivity. Defined.

(** C8. The first-board condition subsumes the streak condition: the table
    [filter_stocks] returns, with both [consecutive_limit_days < 4] and
    [consecutive_limit_days == 1] in the conjunction, is the table of the
    variant that keeps only [consecutive_limit_days == 1] with the other three
    conditions; so for every table, those with the four fields resolved among
    them, and also when the call raises. *)
Theorem C8_first_board_subsumes (h : heap) (df : ref) (d : DataFrame) :
  h !! df = Some d -> call h df = filter_table_first_board_only d.
Proof.
  intros H. rewrite (call_table h df d H). apply Variant.filter_table_variant.
Qed.

Lemma C8_first_board_subsumes_witness :
  call [Samples.snapshot] 0 = filter_table_first_board_only Samples.snapshot.
Proof. apply (C8_first_board_subsumes [Samples.snapshot] 0). reflexivity. Defined.

(** C3. Unit normalization (lines 114-118), on a table whose market-cap
    column [c] is numeric. The maximum of the column is null when no entry
    is a number, and otherwise an entry of the column that no number among
    the entries exceeds; so it exceeds 1000 exactly when some entry does.
    When it does, every entry of the column is divided by 1e8 and nothing
    else changes; when it is at most 1000, or null, the table is left
    unchanged. The column [50, 80, 120] stays as it is and [5e9, 8e9]
    becomes [50, 80]; [5e9, 50], with the largest entry first, becomes
    [50, 5e-07]; [NaN, 8e9] becomes [NaN, 80]; [NaN, NaN] stays. *)
Theorem C3_unit_normalization :
  (forall (d : DataFrame) (c : string) (p : nat),
     rect (length (columns d)) (rows d) ->
     index_of c (columns d) = Some p ->
     Forall (fun r => is_numeric (cell p r) = true) (rows d) ->
     let caps := map (fun r => coerce (cell p r)) (rows d) in
     exists max_mktcap,
       (s ← get_col c d; series_max s) = Ok max_mktcap /\
       (if is_nan max_mktcap
        then Forall (fun x => is_nan x = true) caps
        else In max_mktcap caps /\
             Forall (fun x => is_nan x = false -> leb x max_mktcap = true) caps) /\
       (ltb f1000 max_mktcap = true <->
        Exists (fun x => ltb f1000 x = true) caps) /\
       (ltb f1000 max_mktcap = true ->
        normalize_unit (Some c) d =
        Ok (mkDF (columns d)
              (map (fun r => set_cell p r (PFloat (div (coerce (cell p r)) f1e8)))
                 (rows d))) /\
        exists d', normalize_unit (Some c) d = Ok d' /\
                   columns d' = columns d /\
                   get_col c d' = Ok (map (fun x => PFloat (div x f1e8)) caps)) /\
       (ltb f1000 max_mktcap = false -> normalize_unit (Some c) d = Ok d)) /\
  normalize_unit (Some "总市值") Samples.caps_small = Ok Samples.caps_small /\
  normalize_unit (Some "总市值") Samples.caps_yuan = Ok Samples.caps_scaled /\
  normalize_unit (Some "总市值") Samples.caps_yuan_first =
    Ok Samples.caps_yuan_first_scaled /\
  normalize_unit (Some "总市值") Samples.caps_nan_first =
    Ok Samples.caps_nan_first_scaled /\
  normalize_unit (Some "总市值") Samples.caps_null = Ok Samples.caps_null.
Proof.
  split; [|repeat apply conj; vm_compute; reflexivity].
  intros d c p Hrect Hp Hnum caps. exists (fold_left max2 caps nan).
  set (mx := fold_left max2 caps nan).
  assert (Strategy.should_scale p (rows d) = ltb f1000 mx) as Hflag.
  { unfold Strategy.should_scale. fold caps. fold mx.
    destruct (is_nan mx) eqn:En; [|reflexivity].
    destruct mx; try discriminate. reflexivity. }
  assert (get_col c (mkDF (columns d)
            (map (fun r => set_cell p r (PFloat (div (coerce (cell p r)) f1e8)))
               (rows d))) =
          Ok (map (fun x => PFloat (div x f1e8)) caps)) as Hcol.
  { rewrite (get_col_at c p (mkDF (columns d) _) Hp). cbn [rows]. f_equal.
    unfold caps. rewrite !map_map. apply map_ext_Forall.
    eapply Forall_impl; [exact Hrect|]. intros r Hr. simpl in Hr.
    rewrite cell_set_cell, Nat.eqb_refl; [reflexivity|].
    apply index_of_lt in Hp. lia. }
  split; [|split; [|split; [|split]]].
  - rewrite (get_col_at c p d Hp). cbn [mbind result_bind].
    unfold series_max. rewrite (as_floats_col p _ Hnum). reflexivity.
  - exact (series_max_spec caps).
  - exact (series_max_above caps f1000).
  - intros Hgt. rewrite (normalize_at c p d Hp Hnum), Hflag, Hgt.
    unfold rescale_at. split; [reflexivity|].
    eexists. split; [reflexivity|]. split; [reflexivity|]. exact Hcol.
  - intros Hle. rewrite (normalize_at c p d Hp Hnum), Hflag, Hle.
    unfold rescale_at. rewrite map_id, eta_df. reflexivity.
Qed.

(** * Further properties of the script *)

Import ResultFacts.

Lemma wf_sample (d : DataFrame) :
  List.nodup String.string_dec (columns d) = columns d ->
  forallb (fun r : row => Nat.eqb (length (snd r)) (length (columns d))) (rows d) = true ->
  wf d.
Proof.
  intros Hn Hr. split.
  - apply NoDup_ListNoDup. rewrite <- Hn. apply List.NoDup_nodup.
  - apply List.Forall_forall. intros r Hin.
    rewrite forallb_forall in Hr. apply Nat.eqb_eq, Hr, Hin.
Qed.

(** X1. Lines 50-51: on an empty table the call returns the argument object
    itself, without copying, and leaves the store as it is. *)
Theorem X1_empty_returns_argument (h : heap) (df : ref) (d : DataFrame) :
  h !! df = Some d -> empty d = true -> filter_stocks df h = (Ok df, h).
Proof.
  intros Hr He. unfold filter_stocks.
  rewrite bind_run, (df_empty_at h df d Hr), He. reflexivity.
Qed.

Lemma X1_empty_returns_argument_witness :
  filter_stocks 0 [mkDF ["代码"; "名称"] []] = (Ok 0, [mkDF ["代码"; "名称"] []]).
Proof.
  apply (X1_empty_returns_argument [mkDF ["代码"; "名称"] []] 0 (mkDF ["代码"; "名称"] []));
    reflexivity.
Defined.

(** X2. Lines 94-107: when one of the four fields has no column and the
    table is not empty but has the code and name columns, no condition is
    applied: the call returns the code and name columns of all the rows, in
    their order and under their index labels. *)
Theorem X2_missing_field_returns_code_name
    (h : heap) (df : ref) (d : DataFrame) (pc pn : nat) :
  h !! df = Some d -> wf d -> empty d = false -> ~ resolved d ->
  index_of col_code (columns d) = Some pc ->
  index_of col_name (columns d) = Some pn ->
  call h df = Ok (mkDF [col_code; col_name] (map (project [pc; pn]) (rows d))).
Proof.
  intros Hr Hwf Hne Hres Hc Hn. rewrite (call_table h df d Hr).
  rewrite (filter_table_missing d Hne Hres). cbn [forallb].
  unfold mem. rewrite !andb_true_r.
  assert (existsb (String.eqb col_code) (columns (parsed d)) = true) as ->.
  { apply index_of_mem. rewrite parsed_index by discriminate. rewrite Hc. eauto. }
  assert (existsb (String.eqb col_name) (columns (parsed d)) = true) as ->.
  { apply index_of_mem. rewrite parsed_index by discriminate. rewrite Hn. eauto. }
  apply select_code_name; [apply wf_rect, Hwf|assumption..].
Qed.

Lemma X2_missing_field_returns_code_name_witness :
  call [Samples.no_mktcap] 0 =
  Ok (mkDF [col_code; col_name] (map (project [0; 1]) (rows Samples.no_mktcap))).
Proof.
  apply (X2_missing_field_returns_code_name [Samples.no_mktcap] 0 Samples.no_mktcap 0 1);
    try reflexivity.
  - apply wf_sample; vm_compute; reflexivity.
  - intros (_ & [x Hx] & _). vm_compute in Hx. discriminate Hx.
Defined.

(** X3. Line 107, second branch: on a table with distinct column labels,
    when a field has no column and the code or the name column is absent
    too, the call returns the whole copy: the table passed, with the parsed
    counts under [近半年涨停次数_解析] when the composite column [涨停统计]
    is there. *)
Theorem X3_missing_field_returns_copy (h : heap) (df : ref) (d : DataFrame) :
  h !! df = Some d -> wf d -> empty d = false -> ~ resolved d ->
  mem col_code (columns d) && mem col_name (columns d) = false ->
  call h df = Ok (parsed d).
Proof.
  intros Hr _ Hne Hres Hcn. rewrite (call_table h df d Hr).
  rewrite (filter_table_missing d Hne Hres). cbn [forallb].
  rewrite andb_true_r. unfold mem in *.
  assert (forall c, c <> col_parsed ->
            existsb (String.eqb c) (columns (parsed d)) =
            existsb (String.eqb c) (columns d)) as Hmem.
  { intros c Hc.
    destruct (existsb (String.eqb c) (columns d)) eqn:E.
    - apply index_of_mem. rewrite (parsed_index c d Hc). apply index_of_mem, E.
    - apply index_of_none. rewrite (parsed_index c d Hc). apply index_of_none, E. }
  rewrite !Hmem by discriminate. rewrite Hcn. reflexivity.
Qed.

Lemma X3_missing_field_returns_copy_witness :
  call [Samples.name_only] 0 =
  Ok (mkDF ["名称"; "最新价"; "涨停统计"; "近半年涨停次数_解析"]
        [ (PInt 7, [PStr "A"; Samples.fl 10; PStr "5/3"; PInt 3]);
          (PInt 9, [PStr "B"; Samples.fl 50; PStr "abc"; PInt 0]) ]).
Proof.
  apply (X3_missing_field_returns_copy [Samples.name_only] 0 Samples.name_only);
    try reflexivity.
  - apply wf_sample; vm_compute; reflexivity.
  - intros (_ & [x Hx] & _). vm_compute in Hx. discriminate Hx.
Defined.

Lemma full_path_key_error (h : heap) (df : ref) (d : DataFrame) :
  h !! df = Some d -> wf d -> empty d = false -> resolved d ->
  mem col_code (columns d) && mem col_name (columns d) = false ->
  call h df = Raise KeyError.
Proof.
  intros Hr Hwf Hne Hres Hcn. rewrite (call_table h df d Hr).
  rewrite (filter_table_prepared d (wf_rect d Hwf) Hne Hres).
  rewrite (prepared_raises d (wf_rect d Hwf) Hres Hcn). reflexivity.
Qed.

(** X4. Line 140: when the four fields have their columns and the table is
    not empty, but the code or the name column is absent, the call raises
    [KeyError] (the guard of line 107 has no counterpart on this path). *)
Theorem X4_full_path_needs_code_and_name (h : heap) (df : ref) (d : DataFrame) :
  h !! df = Some d -> wf d -> empty d = false -> resolved d ->
  mem col_code (columns d) && mem col_name (columns d) = false ->
  call h df = Raise KeyError.
Proof. apply full_path_key_error. Qed.

Lemma resolved_sample (d : DataFrame) :
  match first_present price_cols (columns d),
        first_present mktcap_cols (columns d),
        first_present lianban_cols (columns d),
        first_present times_cols (columns d) with
  | Some _, Some _, Some _, Some _ => True
  | _, _, _, _ => False
  end -> resolved d.
Proof.
  unfold resolved.
  destruct (first_present price_cols _), (first_present mktcap_cols _),
    (first_present lianban_cols _), (first_present times_cols _);
    intros H; try contradiction; repeat split; eauto.
Qed.

Lemma X4_full_path_needs_code_and_name_witness :
  call [Samples.no_code] 0 = Raise KeyError.
Proof.
  apply (X4_full_path_needs_code_and_name [Samples.no_code] 0 Samples.no_code);
    try reflexivity.
  - apply wf_sample; vm_compute; reflexivity.
  - apply resolved_sample. vm_compute. exact I.
Defined.

(** The table a call returns on the full path. *)
Lemma call_full (h : heap) (df : ref) (d : DataFrame) :
  h !! df = Some d -> wf d -> empty d = false -> resolved d ->
  mem col_code (columns d) = true -> mem col_name (columns d) = true ->
  exists p, prepared d = Ok p /\ columns p = display_cols /\
            length (rows p) = length (rows d) /\
            call h df =
            Ok (reset_index
                  (mkDF display_cols
                     (sort (cmp_rows sort_positions)
                        (List.filter five_conditions (rows p))))).
Proof.
  intros Hr Hwf Hne Hres Hc Hn.
  destruct (prepared_ok d (wf_rect d Hwf) Hres Hc Hn) as (p & Hp & Hcols & Hlen & _).
  exists p. repeat split; try assumption.
  rewrite (call_table h df d Hr).
  rewrite (filter_table_prepared d (wf_rect d Hwf) Hne Hres), Hp.
  cbn [mbind result_bind]. rewrite Hcols. reflexivity.
Qed.

Lemma resolved_empty_rows (d : DataFrame) :
  resolved d -> empty d = true -> rows d = [].
Proof.
  intros ([np Hp] & _) He. unfold empty in He.
  apply orb_true_iff in He as [He|He]; apply Nat.eqb_eq in He.
  - destruct (rows d); [reflexivity|discriminate].
  - destruct (columns d); [discriminate Hp|discriminate He].
Qed.

(** What a returned table is made of, on either path with the four fields
    resolved: [rs] are the rows kept, before they are sorted. *)
Lemma call_resolved (h : heap) (df : ref) (d out : DataFrame) :
  h !! df = Some d -> wf d -> resolved d -> call h df = Ok out ->
  exists rs,
    Forall (fun r => five_conditions r = true) rs /\
    (forall p, prepared d = Ok p -> rs = List.filter five_conditions (rows p)) /\
    (rows d <> [] -> exists p, prepared d = Ok p) /\
    rows out =
    imap (fun i (r : row) => (PInt (Z.of_nat i), snd r))
      (sort (cmp_rows sort_positions) rs).
Proof.
  intros Hr Hwf Hres Hcall.
  destruct (empty d) eqn:He.
  - pose proof (resolved_empty_rows d Hres He) as Hrows.
    rewrite (call_table h df d Hr) in Hcall.
    unfold filter_table, filter_table_with in Hcall. rewrite He in Hcall.
    injection Hcall as <-. exists []. repeat split.
    + constructor.
    + intros p Hp.
      destruct (located_exists d (wf_rect d Hwf) Hres)
        as (d0 & np & nm & nl & nt & pp & pm & pl & pt & Hloc).
      rewrite (prepared_located _ _ _ _ _ _ _ _ _ _ Hloc) in Hp.
      pose proof (loc_len _ _ _ _ _ _ _ _ _ _ Hloc) as Hlen.
      rewrite Hrows in Hlen. destruct (rows d0); [|discriminate].
      destruct (index_of col_code _); [|discriminate].
      destruct (index_of col_name _); [|discriminate].
      injection Hp as <-. reflexivity.
    + intros Hn. contradiction.
    + rewrite Hrows. reflexivity.
  - destruct (mem col_code (columns d) && mem col_name (columns d)) eqn:Hcn.
    + apply andb_true_iff in Hcn as [Hc Hn].
      destruct (call_full h df d Hr Hwf He Hres Hc Hn) as (p & Hp & _ & _ & Hout).
      rewrite Hout in Hcall. injection Hcall as <-.
      exists (List.filter five_conditions (rows p)). repeat split.
      * apply List.Forall_forall. intros r Hin. apply filter_In in Hin. tauto.
      * intros p' Hp'. congruence.
      * intros _. eauto.
    + rewrite (full_path_key_error h df d Hr Hwf He Hres Hcn) in Hcall.
      discriminate.
Qed.

(** X5. Lines 120-127: with the four fields resolved, every row of a
    returned table has price < 30, market cap < 200, half-year count >= 3,
    consecutive days < 4 and consecutive days == 1. *)
Theorem X5_returned_rows_pass (h : heap) (df : ref) (d out : DataFrame) :
  h !! df = Some d -> wf d -> resolved d -> call h df = Ok out ->
  Forall (fun r =>
            ltb (price r) f30 = true /\
            ltb (market_cap r) f200 = true /\
            leb f3 (half_year_limit_count r) = true /\
            ltb (consecutive_limit_days r) f4 = true /\
            eqb (consecutive_limit_days r) f1 = true) (rows out).
Proof.
  intros Hr Hwf Hres Hcall.
  destruct (call_resolved h df d out Hr Hwf Hres Hcall) as (rs & Hrs & _ & _ & ->).
  apply relabel_Forall; [intros a b c H; exact H|].
  apply List.Forall_forall. intros r Hin.
  apply (Permutation_in _ (sort_perm (cmp_rows sort_positions) rs)) in Hin.
  rewrite List.Forall_forall in Hrs. specialize (Hrs r Hin).
  unfold five_conditions in Hrs. rewrite !andb_true_iff in Hrs. tauto.
Qed.

Lemma X5_returned_rows_pass_witness :
  exists out, call [Samples.snapshot] 0 = Ok out /\
  Forall (fun r =>
            ltb (price r) f30 = true /\
            ltb (market_cap r) f200 = true /\
            leb f3 (half_year_limit_count r) = true /\
            ltb (consecutive_limit_days r) f4 = true /\
            eqb (consecutive_limit_days r) f1 = true) (rows out).
Proof.
  eexists. split; [vm_compute; reflexivity|].
  eapply (X5_returned_rows_pass [Samples.snapshot] 0 Samples.snapshot).
  - reflexivity.
  - apply wf_sample; vm_compute; reflexivity.
  - apply resolved_sample. vm_compute. exact I.
  - vm_compute. reflexivity.
Defined.

(** X6. Lines 109-140: with the four fields resolved, the rows returned are
    the rows of the prepared table (the columns made numeric, the market cap
    in its unit) that pass the five conditions: the same cells, each row as
    often; and when the table has rows the prepared table exists. *)
Theorem X6_returned_rows_are_the_passing_rows
    (h : heap) (df : ref) (d out : DataFrame) :
  h !! df = Some d -> wf d -> resolved d -> call h df = Ok out ->
  (rows d <> [] -> exists p, prepared d = Ok p) /\
  forall p, prepared d = Ok p ->
    Permutation (map snd (rows out))
      (map snd (List.filter five_conditions (rows p))).
Proof.
  intros Hr Hwf Hres Hcall.
  destruct (call_resolved h df d out Hr Hwf Hres Hcall) as (rs & _ & Hp & Hex & ->).
  split; [exact Hex|]. intros p Hprep. rewrite <- (Hp p Hprep).
  rewrite relabel_snd. apply Permutation_map, sort_perm.
Qed.

Lemma X6_returned_rows_are_the_passing_rows_witness :
  exists out p, call [Samples.snapshot] 0 = Ok out /\
    prepared Samples.snapshot = Ok p /\
    Permutation (map snd (rows out))
      (map snd (List.filter five_conditions (rows p))).
Proof.
  eexists. eexists. split; [vm_compute; reflexivity|].
  split; [vm_compute; reflexivity|].
  eapply (X6_returned_rows_are_the_passing_rows [Samples.snapshot] 0 Samples.snapshot).
  - reflexivity.
  - apply wf_sample; vm_compute; reflexivity.
  - apply resolved_sample. vm_compute. exact I.
  - vm_compute. reflexivity.
  - vm_compute. reflexivity.
Defined.

Lemma sample_hyps :
  [Samples.snapshot] !! 0 = Some Samples.snapshot /\ wf Samples.snapshot /\
  resolved Samples.snapshot.
Proof.
  split; [reflexivity|]. split.
  - apply wf_sample; vm_compute; reflexivity.
  - apply resolved_sample. vm_compute. exact I.
Qed.

(** X7. Lines 158-163: a returned table is sorted by the half-year count
    descending, then the consecutive days descending, then the market cap
    ascending: every row stands in that order to every row after it. *)
Theorem X7_returned_rows_sorted (h : heap) (df : ref) (d out : DataFrame) :
  h !! df = Some d -> wf d -> resolved d -> call h df = Ok out ->
  StronglySorted key_before (rows out).
Proof.
  intros Hr Hwf Hres Hcall.
  destruct (call_resolved h df d out Hr Hwf Hres Hcall) as (rs & Hrs & _ & _ & ->).
  apply relabel_sorted; [intros a b c a' b' c' H; exact H|].
  assert (Forall (fun r => five_conditions r = true)
            (sort (cmp_rows sort_positions) rs)) as Hs.
  { apply List.Forall_forall. intros r Hin.
    apply (Permutation_in _ (sort_perm (cmp_rows sort_positions) rs)) in Hin.
    rewrite List.Forall_forall in Hrs. exact (Hrs r Hin). }
  pose proof (sort_strongly_sorted (cmp_rows sort_positions) rs) as Hsorted.
  revert Hs. induction Hsorted as [|x l Hl IH Hx]; intros Hs; constructor.
  - apply IH. inversion Hs; assumption.
  - inversion Hs as [|? ? Px Pl]; subst.
    rewrite List.Forall_forall in *. intros y Hy.
    apply leb_rows_key_before; [exact Px|exact (Pl y Hy)|exact (Hx y Hy)].
Qed.

Lemma X7_returned_rows_sorted_witness :
  exists out, call [Samples.snapshot] 0 = Ok out /\
              StronglySorted key_before (rows out).
Proof.
  destruct sample_hyps as (H1 & H2 & H3).
  eexists. split; [vm_compute; reflexivity|].
  eapply (X7_returned_rows_sorted [Samples.snapshot] 0 Samples.snapshot);
    [exact H1|exact H2|exact H3|vm_compute; reflexivity].
Defined.
